(** * line-career-bot: a shallow embedding of [app.py]

    The development follows the layout of the source file: string
    helpers of the Python runtime, the SQLite store ([db_conn],
    [init_db], [upsert_user], [save_log], [get_recent_logs],
    [list_all_users]), the Gemini gateway ([_extract_retry_seconds],
    [generate_with_fallback]), the prompt builders, the webhook
    handler ([handle_message]) and the nightly job.

    Python [str] values are sequences of Unicode code points; they are
    modelled as [list N].  Source literals are written as UTF-8 string
    literals and decoded by [py]. *)

From Stdlib Require Import ZArith NArith List Ascii String Bool Lia.
From Stdlib Require Import Sorted Permutation DecimalString.
Import ListNotations.

Local Open Scope Z_scope.

(** ** Python strings *)

Module PyStr.

Definition pystr := list N.

(** Decoding of a UTF-8 byte sequence into code points (the source file
    is UTF-8 encoded; only well-formed literals are decoded). *)
Fixpoint utf8_decode (bs : list N) : pystr :=
  match bs with
  | [] => []
  | b0 :: r0 =>
    if (b0 <? 128)%N then b0 :: utf8_decode r0
    else
      match r0 with
      | [] => [b0]
      | b1 :: r1 =>
        if (b0 <? 224)%N then
          N.lor (N.shiftl (N.land b0 31) 6) (N.land b1 63) :: utf8_decode r1
        else
          match r1 with
          | [] => [b0; b1]
          | b2 :: r2 =>
            if (b0 <? 240)%N then
              N.lor (N.shiftl (N.land b0 15) 12)
                (N.lor (N.shiftl (N.land b1 63) 6) (N.land b2 63))
              :: utf8_decode r2
            else
              match r2 with
              | [] => [b0; b1; b2]
              | b3 :: r3 =>
                N.lor (N.shiftl (N.land b0 7) 18)
                  (N.lor (N.shiftl (N.land b1 63) 12)
                     (N.lor (N.shiftl (N.land b2 63) 6) (N.land b3 63)))
                :: utf8_decode r3
              end
          end
      end
  end.

Definition py (s : string) : pystr :=
  utf8_decode (map N_of_ascii (list_ascii_of_string s)).

Arguments py : simpl never.

(** The line feed of ["\n"]. *)
Definition LF : pystr := [10%N].

Definition pystr_eqb (a b : pystr) : bool :=
  if list_eq_dec N.eq_dec a b then true else false.

Lemma pystr_eqb_eq (a b : pystr) : pystr_eqb a b = true <-> a = b.
Proof.
  unfold pystr_eqb. destruct (list_eq_dec N.eq_dec a b); split; congruence.
Qed.

Lemma pystr_eqb_refl (a : pystr) : pystr_eqb a a = true.
Proof. now apply pystr_eqb_eq. Qed.

(** [strip_prefix p s] is [Some s'] when [s = p ++ s']. *)
Fixpoint strip_prefix (p s : pystr) : option pystr :=
  match p, s with
  | [], _ => Some s
  | _ :: _, [] => None
  | a :: p', b :: s' => if (a =? b)%N then strip_prefix p' s' else None
  end.

Definition startswith (s p : pystr) : bool :=
  match strip_prefix p s with Some _ => true | None => false end.

(** [contains needle hay] is Python's [needle in hay]. *)
Fixpoint contains (needle hay : pystr) : bool :=
  if startswith hay needle then true
  else match hay with
       | [] => false
       | _ :: hay' => contains needle hay'
       end.

(** [str.isspace] on one code point: the characters [str.strip()]
    removes when called without argument. *)
Definition isspace (c : N) : bool :=
  ((9 <=? c) && (c <=? 13) || (28 <=? c) && (c <=? 32)
   || (c =? 133) || (c =? 160) || (c =? 5760)
   || (8192 <=? c) && (c <=? 8202)
   || (c =? 8232) || (c =? 8233) || (c =? 8239) || (c =? 8287)
   || (c =? 12288))%N.

Fixpoint lstrip (s : pystr) : pystr :=
  match s with
  | c :: s' => if isspace c then lstrip s' else s
  | [] => []
  end.

Definition rstrip (s : pystr) : pystr := rev (lstrip (rev s)).

Definition strip (s : pystr) : pystr := rstrip (lstrip s).

(** [str(n)] for an [int]. *)
Definition str_of_Z (n : Z) : pystr :=
  py (NilZero.string_of_int (Z.to_int n)).

(** Truthiness of an optional object that is a string or [None]. *)
Definition truthy_str (o : option pystr) : bool :=
  match o with
  | Some (_ :: _) => true
  | _ => false
  end.

(** Truthiness of an optional [int]. *)
Definition truthy_int (o : option Z) : bool :=
  match o with
  | Some n => negb (n =? 0)
  | None => false
  end.

End PyStr.
Export PyStr.

(** ** Exceptions and results *)

Inductive exn : Type :=
| OverflowError
| ValueError
| IntegrityError.

Inductive result (A : Type) : Type :=
| Returned (a : A)
| Raised (e : exn).
Arguments Returned {A} a.
Arguments Raised {A} e.

(** ** The fragment of [re] used by the gateway

    [re.search] is a backtracking matcher: it tries every start
    position from left to right and, at each, explores the pattern with
    greedy quantifiers, giving back characters on failure.  The matcher
    below is written in continuation-passing style; a continuation
    receives the rest of the subject and the groups captured so far. *)

Module Re.

Definition charclass := N -> bool.

Inductive regex : Type :=
| Lit (l : pystr)                (* literal characters *)
| Plus (c : charclass)           (* [c]+ *)
| Star (c : charclass)           (* [c]* *)
| Opt (r : regex)                (* (r)? *)
| Seq (r1 r2 : regex)
| Group (i : nat) (r : regex).   (* i-th capturing group *)

(** Captured groups, most recent first. *)
Definition captures := list (nat * pystr).

Fixpoint group (i : nat) (cs : captures) : option pystr :=
  match cs with
  | [] => None
  | (j, s) :: cs' => if Nat.eqb i j then Some s else group i cs'
  end.

(** The characters of [s] that precede its suffix [s']. *)
Definition consumed (s s' : pystr) : pystr :=
  firstn (List.length s - List.length s') s.

Fixpoint star_class {A : Type} (c : charclass) (s : pystr)
    (k : pystr -> option A) : option A :=
  match s with
  | x :: s' =>
    if c x then
      match star_class c s' k with
      | Some res => Some res
      | None => k s
      end
    else k s
  | [] => k []
  end.

Definition plus_class {A : Type} (c : charclass) (s : pystr)
    (k : pystr -> option A) : option A :=
  match s with
  | x :: s' => if c x then star_class c s' k else None
  | [] => None
  end.

Fixpoint bt (r : regex) (s : pystr) (cs : captures)
    (k : pystr -> captures -> option captures) : option captures :=
  match r with
  | Lit l =>
    match strip_prefix l s with
    | Some s' => k s' cs
    | None => None
    end
  | Plus c => plus_class c s (fun s' => k s' cs)
  | Star c => star_class c s (fun s' => k s' cs)
  | Opt r1 =>
    match bt r1 s cs k with
    | Some res => Some res
    | None => k s cs
    end
  | Seq r1 r2 => bt r1 s cs (fun s1 c1 => bt r2 s1 c1 k)
  | Group i r1 => bt r1 s cs (fun s1 c1 => k s1 ((i, consumed s s1) :: c1))
  end.

Definition match_here (r : regex) (s : pystr) : option captures :=
  bt r s [] (fun _ c => Some c).

(** [re.search(r, s)]: the match at the leftmost position that has one. *)
Fixpoint re_search (r : regex) (s : pystr) : option captures :=
  match match_here r s with
  | Some c => Some c
  | None =>
    match s with
    | [] => None
    | _ :: s' => re_search r s'
    end
  end.

(** The language of a pattern, independently of any search strategy. *)
Inductive matches : regex -> pystr -> Prop :=
| MLit l : matches (Lit l) l
| MPlus c x m :
    c x = true -> Forall (fun y => c y = true) m -> matches (Plus c) (x :: m)
| MStar c m : Forall (fun y => c y = true) m -> matches (Star c) m
| MOptSkip r : matches (Opt r) []
| MOptTake r m : matches r m -> matches (Opt r) m
| MSeq r1 r2 m1 m2 :
    matches r1 m1 -> matches r2 m2 -> matches (Seq r1 r2) (m1 ++ m2)
| MGroup i r m : matches r m -> matches (Group i r) m.

(** [s] has a substring in the language of [r]. *)
Definition occurs (r : regex) (s : pystr) : Prop :=
  exists pre m suf, s = pre ++ m ++ suf /\ matches r m.

(** Character classes of the two patterns. *)
Definition ascii_digit : charclass :=
  fun c => ((48 <=? c) && (c <=? 57))%N.

(** First code point of every run of ten Unicode decimal digits
    (general category Nd), the characters matched by [\d] in a [str]
    pattern. *)
Definition unicode_decimal_runs : list N :=
  [48; 1632; 1776; 1984; 2406; 2534; 2662; 2790; 2918; 3046; 3174; 3302;
   3430; 3558; 3664; 3792; 3872; 4160; 4240; 6112; 6160; 6470; 6608; 6784;
   6800; 6992; 7088; 7232; 7248; 42528; 43216; 43264; 43472; 43504; 43600;
   44016; 65296; 66720; 68912; 69734; 69872; 69942; 70096; 70384; 70736;
   70864; 71248; 71360; 71472; 71904; 72016; 72784; 73040; 73120; 92768;
   92864; 93008; 120782; 120792; 120802; 120812; 120822; 123200; 123632;
   125264; 130032]%N.

Definition unicode_digit : charclass :=
  fun c => existsb (fun a => (a <=? c) && (c <? a + 10))%N unicode_decimal_runs.

Definition non_digit : charclass := fun c => negb (unicode_digit c).

(** [r"retry in ([0-9]+(\.[0-9]+)?)s"] *)
Definition pat_retry_in : regex :=
  Seq (Lit (py "retry in "))
    (Seq (Group 1 (Seq (Plus ascii_digit)
                     (Opt (Group 2 (Seq (Lit (py ".")) (Plus ascii_digit))))))
       (Lit (py "s"))).

(** [r"retryDelay[^\d]*([0-9]+)s"] *)
Definition pat_retryDelay : regex :=
  Seq (Lit (py "retryDelay"))
    (Seq (Star non_digit)
       (Seq (Group 1 (Plus ascii_digit)) (Lit (py "s")))).

End Re.
Export Re.

(** ** [float] and [int] on the captured text

    [float(s)] converts a decimal literal to the nearest IEEE 754
    binary64 value, ties to even, and to infinity when the rounded
    value does not fit.  Only non-negative literals of the shapes
    [D+] and [D+.D+] reach it.  A finite value is kept as
    [mant * 2 ^ expo]. *)

Module PyFloat.

Inductive pyfloat : Type :=
| F64 (mant expo : Z)
| F64inf.

(** Nearest integer to [a / b], ties to even ([0 <= a], [0 < b]). *)
Definition rne_div (a b : Z) : Z :=
  let q := a / b in
  let r := a mod b in
  if 2 * r <? b then q
  else if b <? 2 * r then q + 1
  else if Z.even q then q else q + 1.

(** [2 ^ e <= n / d] for positive [n], [d]. *)
Definition ge_pow2 (n d e : Z) : bool :=
  if 0 <=? e then d * 2 ^ e <=? n else d <=? n * 2 ^ (- e).

(** Correctly rounded binary64 value of [n / d] ([0 <= n], [0 < d]). *)
Definition binary64_of_ratio (n d : Z) : pyfloat :=
  if n =? 0 then F64 0 0
  else
    let e0 := Z.log2 n - Z.log2 d in
    let e := if ge_pow2 n d e0 then e0 else e0 - 1 in
    let q := Z.max (e - 52) (-1074) in
    let m := if 0 <=? q then rne_div n (d * 2 ^ q)
             else rne_div (n * 2 ^ (- q)) d in
    if 1024 <=? q + Z.log2 m then F64inf else F64 m q.

Definition digit_value (c : N) : Z := Z.of_N c - 48.

Definition int_of_digits (s : pystr) : Z :=
  fold_left (fun acc c => 10 * acc + digit_value c) s 0.

(** Splits a literal at its first ['.']. *)
Fixpoint split_dot (s : pystr) : pystr * option pystr :=
  match s with
  | [] => ([], None)
  | c :: s' =>
    if (c =? 46)%N then ([], Some s')
    else let '(a, b) := split_dot s' in (c :: a, b)
  end.

Definition all_digits (s : pystr) : bool :=
  match s with
  | [] => false
  | _ => forallb ascii_digit s
  end.

(** [float(s)]; [ValueError] outside the two shapes above. *)
Definition float_of_str (s : pystr) : result pyfloat :=
  match split_dot s with
  | (ip, None) =>
    if all_digits ip then Returned (binary64_of_ratio (int_of_digits ip) 1)
    else Raised ValueError
  | (ip, Some fp) =>
    if all_digits ip && all_digits fp then
      Returned (binary64_of_ratio (int_of_digits (ip ++ fp))
                  (10 ^ Z.of_nat (List.length fp)))
    else Raised ValueError
  end.

(** [int(x)] for a non-negative float: truncation, and [OverflowError]
    on infinity. *)
Definition int_of_float (x : pyfloat) : result Z :=
  match x with
  | F64 m q => Returned (if 0 <=? q then m * 2 ^ q else m / 2 ^ (- q))
  | F64inf => Raised OverflowError
  end.

(** [int(s)] for a string of ASCII digits. *)
Definition int_of_str (s : pystr) : result Z :=
  if all_digits s then Returned (int_of_digits s) else Raised ValueError.

End PyFloat.
Export PyFloat.

(** ** Gemini safe call: parsing the suggested delay *)

Definition _extract_retry_seconds (msg : pystr) : result (option Z) :=
  match re_search pat_retry_in msg with
  | Some m =>
    match group 1 m with
    | Some g =>
      match float_of_str g with
      | Returned x =>
        match int_of_float x with
        | Returned n => Returned (Some n)
        | Raised e => Raised e
        end
      | Raised e => Raised e
      end
    | None => Raised ValueError
    end
  | None =>
    match re_search pat_retryDelay msg with
    | Some m =>
      match group 1 m with
      | Some g =>
        match int_of_str g with
        | Returned n => Returned (Some n)
        | Raised e => Raised e
        end
      | None => Raised ValueError
      end
    | None => Returned None
    end
  end.

(** ** Settings *)

Definition MODEL_CANDIDATES : list pystr :=
  [py "gemini-2.5-flash";
   py "gemini-2.0-flash-lite";
   py "gemini-2.0-flash";
   py "gemini-pro-latest"].

Definition DAILY_QUESTION : pystr :=
  py "こんばんは！今日の就活・勉強・生活はどうでしたか？" ++ LF ++
  py "例：『今日就活した。大手企業調べは何から勉強すればいいかわからない』" ++ LF ++
  py "そのまま送ってOKです。".

Definition PROFILE_QUERY_PHRASES : list pystr :=
  [py "今の私はどんなですか";
   py "今の私はどんな";
   py "私ってどんな";
   py "自分ってどんな"].

(** ** The SQLite store *)

Module Store.

(** A row of [users]. *)
Record user_row : Type := mk_user {
  user_id : pystr;
  user_created_at : pystr
}.

(** A row of [daily_logs]. *)
Record log_row : Type := mk_log {
  log_id : Z;
  log_user_id : pystr;
  log_date : pystr;
  user_text : pystr;
  ai_reply : pystr;
  model_used : option pystr;
  created_at : pystr
}.

(** The tables in rowid order, and the counter that [AUTOINCREMENT]
    keeps in [sqlite_sequence]. *)
Record database : Type := mk_db {
  users : list user_row;
  daily_logs : list log_row;
  sqlite_sequence : Z
}.

(** What the result rows of [get_recent_logs] hold:
    [SELECT log_date, user_text, ai_reply, model_used, created_at]. *)
Record recent_row : Type := mk_recent {
  r_log_date : pystr;
  r_user_text : pystr;
  r_ai_reply : pystr;
  r_model_used : option pystr;
  r_created_at : pystr
}.

(** A connection; [foreign_keys] is the state of
    [PRAGMA foreign_keys]. *)
Record connection : Type := mk_conn {
  foreign_keys : bool
}.

(** [sqlite3.connect(DB_PATH, check_same_thread=False)]: no pragma is
    issued, so foreign key enforcement keeps SQLite's default, off. *)
Definition db_conn : connection := {| foreign_keys := false |}.

(** A reading of [datetime.now(JST)], with the two renderings the
    program takes of it: [.isoformat()] and [.date().isoformat()]. *)
Record datetime : Type := mk_datetime {
  isoformat : pystr;
  date_isoformat : pystr
}.

(** [CREATE TABLE IF NOT EXISTS] twice, on a file that may not hold
    the tables yet. *)
Definition init_db (file : option database) : database :=
  match file with
  | Some db => db
  | None => {| users := []; daily_logs := []; sqlite_sequence := 0 |}
  end.

Definition has_user (uid : pystr) (db : database) : bool :=
  existsb (fun u => pystr_eqb (user_id u) uid) (users db).

(** [INSERT OR IGNORE INTO users(user_id, created_at) VALUES(?, ?)] *)
Definition sql_insert_or_ignore_user (uid ts : pystr) (db : database)
  : database :=
  if has_user uid db then db
  else {| users := users db ++ [mk_user uid ts];
          daily_logs := daily_logs db;
          sqlite_sequence := sqlite_sequence db |}.

Definition max_rowid (rows : list log_row) : Z :=
  fold_right (fun r acc => Z.max (log_id r) acc) 0 rows.

(** The rowid [AUTOINCREMENT] gives the next row. *)
Definition next_rowid (db : database) : Z :=
  Z.max (max_rowid (daily_logs db)) (sqlite_sequence db) + 1.

(** [INSERT INTO daily_logs(user_id, log_date, user_text, ai_reply,
    model_used, created_at) VALUES(?, ?, ?, ?, ?, ?)] *)
Definition sql_insert_daily_log (conn : connection)
    (uid date text reply : pystr) (model : option pystr) (ts : pystr)
    (db : database) : result database :=
  if foreign_keys conn && negb (has_user uid db) then Raised IntegrityError
  else
    let i := next_rowid db in
    Returned {| users := users db;
                daily_logs :=
                  daily_logs db ++ [mk_log i uid date text reply model ts];
                sqlite_sequence := i |}.

(** [ORDER BY id DESC], as an insertion sort. *)
Fixpoint insert_desc (r : log_row) (rows : list log_row) : list log_row :=
  match rows with
  | [] => [r]
  | r' :: rows' =>
    if log_id r' <=? log_id r then r :: rows
    else r' :: insert_desc r rows'
  end.

Fixpoint order_by_id_desc (rows : list log_row) : list log_row :=
  match rows with
  | [] => []
  | r :: rows' => insert_desc r (order_by_id_desc rows')
  end.

(** [LIMIT ?]: a negative bound means no bound. *)
Definition sql_limit {A : Type} (n : Z) (rows : list A) : list A :=
  if n <? 0 then rows else firstn (Z.to_nat n) rows.

Definition where_user_id (uid : pystr) (rows : list log_row) : list log_row :=
  filter (fun r => pystr_eqb (log_user_id r) uid) rows.

(** The stored rows that the query of [get_recent_logs] selects. *)
Definition selected_logs (uid : pystr) (limit : Z) (db : database)
  : list log_row :=
  sql_limit limit (order_by_id_desc (where_user_id uid (daily_logs db))).

Definition project (r : log_row) : recent_row :=
  mk_recent (log_date r) (user_text r) (ai_reply r) (model_used r)
    (created_at r).

(** [SELECT log_date, user_text, ai_reply, model_used, created_at
    FROM daily_logs WHERE user_id=? ORDER BY id DESC LIMIT ?];
    a bound parameter must fit SQLite's 64-bit INTEGER. *)
Definition sql_select_recent (uid : pystr) (limit : Z) (db : database)
  : result (list recent_row) :=
  if (limit <? - 2 ^ 63) || (2 ^ 63 <=? limit) then Raised OverflowError
  else Returned (map project (selected_logs uid limit db)).

(** [SELECT user_id FROM users] *)
Definition sql_select_user_ids (db : database) : list pystr :=
  map user_id (users db).

End Store.
Export Store.

(** ** The world the program runs in

    The collaborators are the clock, the generative backend and the
    LINE transport.  The backend is an oracle: its answer to a call may
    depend on how many calls came before, on the model and on the
    prompt.  Every effect is recorded in a trace, in program order. *)

Inductive outcome : Type :=
| Responds (text : option pystr)
    (* a response; [getattr(res, "text", None)] *)
| RaisesClientError (status_code : option Z) (message : pystr)
    (* [ClientError]; [getattr(e, "status_code", None)] and [str(e)] *)
| RaisesException.
    (* any other [Exception] *)

Record environment : Type := mk_env {
  clock : nat -> datetime;
  generate_content : nat -> pystr -> pystr -> outcome
}.

Inductive event : Type :=
| EvUpsertUser (uid : pystr)
| EvSaveLog (uid date text reply : pystr) (model : option pystr)
| EvGetRecentLogs (uid : pystr) (limit : Z)
| EvListAllUsers
| EvGenerateContent (model contents : pystr)
| EvSleep (secs : Z)
| EvReplyText (token text : pystr)
| EvPushText (uid text : pystr).

Record world : Type := mk_world {
  w_db : database;
  w_ticks : nat;      (* clock readings taken so far *)
  w_calls : nat;      (* backend calls made so far *)
  w_trace : list event
}.

(** Computations that read and update the world and may raise. *)
Definition M (A : Type) : Type := world -> result A * world.

Definition ret {A : Type} (a : A) : M A := fun w => (Returned a, w).

Definition bind {A B : Type} (m : M A) (f : A -> M B) : M B :=
  fun w =>
    match m w with
    | (Returned a, w') => f a w'
    | (Raised e, w') => (Raised e, w')
    end.

Definition raise {A : Type} (e : exn) : M A := fun w => (Raised e, w).

Declare Scope py_scope.
Delimit Scope py_scope with py.
Notation "x <- m ;; k" := (bind m (fun x => k))
  (at level 61, m at next level, right associativity) : py_scope.
Notation "' p <- m ;; k" := (bind m (fun x => let 'p := x in k))
  (at level 61, p pattern, m at next level, right associativity) : py_scope.
Notation "m ;; k" := (bind m (fun _ => k))
  (at level 61, right associativity) : py_scope.
Local Open Scope py_scope.

Definition lift {A : Type} (r : result A) : M A := fun w => (r, w).

Definition emit (ev : event) : M unit :=
  fun w => (Returned tt,
            mk_world (w_db w) (w_ticks w) (w_calls w) (w_trace w ++ [ev])).

Definition get_db : M database := fun w => (Returned (w_db w), w).

Definition put_db (db : database) : M unit :=
  fun w => (Returned tt, mk_world db (w_ticks w) (w_calls w) (w_trace w)).

(** The final world and the result of a run. *)
Definition final {A : Type} (m : M A) (w : world) : world := snd (m w).
Definition outcome_of {A : Type} (m : M A) (w : world) : result A := fst (m w).

(** The events a run adds to the trace. *)
Definition new_events {A : Type} (m : M A) (w : world) : list event :=
  skipn (List.length (w_trace w)) (w_trace (final m w)).

Section Program.

Variable env : environment.

(** [datetime.now(JST)] *)
Definition datetime_now : M datetime :=
  fun w => (Returned (clock env (w_ticks w)),
            mk_world (w_db w) (S (w_ticks w)) (w_calls w) (w_trace w)).

(** [client.models.generate_content(model=model, contents=prompt)] *)
Definition call_generate_content (model prompt : pystr) : M outcome :=
  fun w => (Returned (generate_content env (w_calls w) model prompt),
            mk_world (w_db w) (w_ticks w) (S (w_calls w))
              (w_trace w ++ [EvGenerateContent model prompt])).

(** [time.sleep(secs)] *)
Definition sleep (secs : Z) : M unit := emit (EvSleep secs).

(** *** DB helpers *)

Definition upsert_user (uid : pystr) : M unit :=
  emit (EvUpsertUser uid) ;;
  now <- datetime_now ;;
  db <- get_db ;;
  put_db (sql_insert_or_ignore_user uid (isoformat now) db).

Definition save_log (uid date text reply : pystr) (model : option pystr)
  : M unit :=
  emit (EvSaveLog uid date text reply model) ;;
  now <- datetime_now ;;
  db <- get_db ;;
  db' <- lift (sql_insert_daily_log db_conn uid date text reply model
                 (isoformat now) db) ;;
  put_db db'.

Definition get_recent_logs (uid : pystr) (limit : Z) : M (list recent_row) :=
  emit (EvGetRecentLogs uid limit) ;;
  db <- get_db ;;
  lift (sql_select_recent uid limit db).

Definition list_all_users : M (list pystr) :=
  emit EvListAllUsers ;;
  db <- get_db ;;
  ret (sql_select_user_ids db).

(** *** LINE helpers *)

Definition reply_text (token text : pystr) : M unit :=
  emit (EvReplyText token text).

Definition push_text (uid text : pystr) : M unit :=
  emit (EvPushText uid text).

(** *** Gemini safe call *)

Definition is_rate_limit (status_code : option Z) (msg : pystr) : bool :=
  match status_code with
  | Some 429 => true
  | _ => contains (py "RESOURCE_EXHAUSTED") msg
  end.

(** The reply given for a response without text. *)
Definition placeholder : pystr :=
  py "ごめん、今うまく文章を作れなかった…もう一回送って！".

(** The [for model in MODEL_CANDIDATES] loop of
    [generate_with_fallback], from the candidates still to visit and the
    current [last_retry]; reaching the end of the list or a [break]
    leads to the final [return None, None, last_retry]. *)
Fixpoint fallback_loop (models : list pystr) (prompt : pystr)
    (max_wait_seconds : Z) (last_retry : option Z)
  : M (option pystr * option pystr * option Z) :=
  match models with
  | [] => ret (None, None, last_retry)
  | model :: rest =>
    res <- call_generate_content model prompt ;;
    match res with
    | Responds text =>
      if truthy_str text then ret (text, Some model, None)
      else ret (Some placeholder, Some model, None)
    | RaisesClientError status msg =>
      if is_rate_limit status msg then
        retry_sec <- lift (_extract_retry_seconds msg) ;;
        if negb (max_wait_seconds =? 0) && truthy_int retry_sec
           && match retry_sec with
              | Some n => n <=? max_wait_seconds
              | None => false
              end
        then
          sleep (match retry_sec with Some n => n | None => 0 end) ;;
          fallback_loop rest prompt max_wait_seconds retry_sec
        else
          fallback_loop rest prompt max_wait_seconds retry_sec
      else ret (None, None, last_retry)
    | RaisesException => ret (None, None, last_retry)
    end
  end.

Definition generate_with_fallback (prompt : pystr) (max_wait_seconds : Z)
  : M (option pystr * option pystr * option Z) :=
  fallback_loop MODEL_CANDIDATES prompt max_wait_seconds None.

End Program.

(** ** Prompt builders *)

Definition build_recent_text (rows : list recent_row) : pystr :=
  match rows with
  | [] => py "(履歴なし)"
  | _ =>
    fold_left
      (fun txt r =>
         txt ++ py "- [" ++ r_log_date r ++ py "] ユーザー: " ++ r_user_text r
             ++ LF ++ py "  AI: " ++ r_ai_reply r ++ LF)
      (rev rows) []
  end.

Definition build_daily_prompt (user_message : pystr) (rows : list recent_row)
  : pystr :=
  let recent_text := build_recent_text rows in
  py "あなたは優しく現実的な就活・学習サポーターです。" ++ LF ++
  py "ユーザーの本日の報告を受けて、次の行動が進むように短く具体的に返してください。" ++ LF ++
  py "要件:" ++ LF ++
  py "- 1〜3文で。" ++ LF ++
  py "- 可能なら“質問を1つ”入れて次の会話につなげる。" ++ LF ++
  py "- 説教はしない。" ++ LF ++ LF ++
  py "直近の履歴:" ++ LF ++
  recent_text ++ LF ++ LF ++
  py "本日のユーザー発言:" ++ LF ++
  user_message ++ LF.

Definition build_profile_prompt (rows : list recent_row) : pystr :=
  let recent_text :=
    match rows with
    | [] => py "(ログなし)"
    | _ =>
      fold_left
        (fun txt r =>
           txt ++ py "- [" ++ r_log_date r ++ py "] " ++ r_user_text r ++ LF)
        (rev rows) []
    end in
  py "あなたはユーザーの成長を見守るコーチです。" ++ LF ++
  py "以下のログから、ユーザーの最近の状態を“人物像”として短くまとめてください。" ++ LF ++
  py "要件:" ++ LF ++
  py "- 日本語" ++ LF ++
  py "- 3〜5文" ++ LF ++
  py "- 1文目で性格/強み（例：向上心、継続力）" ++ LF ++
  py "- 2〜3文目で最近の忙しさ/課題" ++ LF ++
  py "- 最後に“優しい一言 + 次の一歩の提案”" ++ LF ++ LF ++
  py "ログ:" ++ LF ++
  recent_text ++ LF.

(** ** Webhook *)

(** What [handle_message] reads of a [MessageEvent]:
    [getattr(event.source, "user_id", None)], [event.message.text] and
    [event.reply_token]. *)
Record message_event : Type := mk_event {
  source_user_id : option pystr;
  message_text : option pystr;
  reply_token : pystr
}.

(** [f"{retry_sec}秒" if retry_sec else "しばらく"] *)
Definition wait_phrase (retry_sec : option Z) : pystr :=
  if truthy_int retry_sec then
    str_of_Z (match retry_sec with Some n => n | None => 0 end) ++ py "秒"
  else py "しばらく".

(** The reply of the profile flow when the gateway has no text. *)
Definition profile_fallback (retry_sec : option Z) : pystr :=
  py "ごめん、今AIの回数制限に当たってる…" ++ wait_phrase retry_sec
  ++ py "後にもう一回お願い！".

(** The reply and stored text of the report flow when the gateway has
    no text. *)
Definition report_fallback (retry_sec : option Z) : pystr :=
  py "ごめん、今AIの回数制限に当たってる…" ++ wait_phrase retry_sec
  ++ py "後にもう一回送って！" ++ LF
  ++ py "（先にメモだけ残すね：そのまま続き送ってOK）".

(** [any(p in user_message for p in PROFILE_QUERY_PHRASES)] *)
Definition is_profile_query (user_message : pystr) : bool :=
  existsb (fun p => contains p user_message) PROFILE_QUERY_PHRASES.

(** [(event.message.text or "").strip()] *)
Definition message_of (event : message_event) : pystr :=
  strip (match message_text event with Some t => t | None => [] end).

Section Handler.

Variable env : environment.

Local Open Scope py_scope.

Definition handle_message (event : message_event) : M unit :=
  match source_user_id event with
  | Some (c :: u) =>
    let user_id := c :: u in
    upsert_user env user_id ;;
    let user_message := message_of event in
    now <- datetime_now env ;;
    let today_jst := date_isoformat now in
    if is_profile_query user_message then
      logs <- get_recent_logs user_id 30 ;;
      let prompt := build_profile_prompt logs in
      '(text, used_model, retry_sec) <- generate_with_fallback env prompt 0 ;;
      match text with
      | None => reply_text (reply_token event) (profile_fallback retry_sec)
      | Some text => reply_text (reply_token event) text
      end
    else
      logs <- get_recent_logs user_id 10 ;;
      let prompt := build_daily_prompt user_message logs in
      '(text, used_model, retry_sec) <- generate_with_fallback env prompt 0 ;;
      match text with
      | None =>
        let fallback := report_fallback retry_sec in
        save_log env user_id today_jst user_message fallback None ;;
        reply_text (reply_token event) fallback
      | Some text =>
        save_log env user_id today_jst user_message text used_model ;;
        reply_text (reply_token event) text
      end
  | _ =>
    reply_text (reply_token event)
      (py "ユーザーIDが取得できなかったよ。1:1トークで試してね。")
  end.

(** ** Daily 21:00 push job *)

Fixpoint push_each (users : list pystr) : M unit :=
  match users with
  | [] => ret tt
  | uid :: rest => push_text uid DAILY_QUESTION ;; push_each rest
  end.

Definition nightly_checkin_job : M unit :=
  users <- list_all_users ;;
  push_each users.

End Handler.

(** * Properties *)

Local Open Scope py_scope.

(** ** The gateway *)

Definition first_candidate : pystr := py "gemini-2.5-flash".

(** The models of the backend calls recorded in a trace. *)
Fixpoint models_called (evs : list event) : list pystr :=
  match evs with
  | [] => []
  | EvGenerateContent model _ :: evs' => model :: models_called evs'
  | _ :: evs' => models_called evs'
  end.

(** Events of the gateway: backend calls and sleeps. *)
Definition is_gateway_event (ev : event) : bool :=
  match ev with
  | EvGenerateContent _ _ | EvSleep _ => true
  | _ => false
  end.

Lemma models_called_app (a b : list event) :
  models_called (a ++ b) = models_called a ++ models_called b.
Proof.
  induction a as [|ev a IH]; simpl; [reflexivity|].
  destruct ev; simpl; rewrite ?IH; reflexivity.
Qed.

Lemma In_firstn {A : Type} (x : A) (n : nat) (l : list A) :
  In x (firstn n l) -> In x l.
Proof.
  intros H. rewrite <- (firstn_skipn n l). apply in_or_app. left. exact H.
Qed.

Lemma skipn_length_app {A : Type} (a b : list A) :
  skipn (List.length a) (a ++ b) = b.
Proof. induction a; simpl; auto. Qed.

Ltac run_step :=
  unfold bind, ret, emit, lift, raise, get_db, put_db, sleep,
    call_generate_content, datetime_now, reply_text, push_text; simpl.

(** C4. If the first candidate's call succeeds with non-empty text, the
    gateway returns that text, the first candidate's name and no retry
    delay, and the backend has been called exactly once: the only event
    added is that call. *)
Theorem generate_with_fallback_first_success
    (env : environment) (prompt : pystr) (max_wait_seconds : Z)
    (w : world) (text : pystr) :
  generate_content env (w_calls w) first_candidate prompt
    = Responds (Some text) ->
  text <> [] ->
  generate_with_fallback env prompt max_wait_seconds w
    = (Returned (Some text, Some first_candidate, None),
       mk_world (w_db w) (w_ticks w) (S (w_calls w))
         (w_trace w ++ [EvGenerateContent first_candidate prompt]))
  /\ hd_error MODEL_CANDIDATES = Some first_candidate
  /\ models_called
       (new_events (generate_with_fallback env prompt max_wait_seconds) w)
     = [first_candidate].
Proof.
  intros Hresp Hne.
  assert (Hrun : generate_with_fallback env prompt max_wait_seconds w
    = (Returned (Some text, Some first_candidate, None),
       mk_world (w_db w) (w_ticks w) (S (w_calls w))
         (w_trace w ++ [EvGenerateContent first_candidate prompt]))).
  { unfold generate_with_fallback, MODEL_CANDIDATES.
    cbn [fallback_loop]. unfold bind at 1, call_generate_content.
    fold first_candidate. rewrite Hresp.
    destruct text as [|c t]; [congruence|]. reflexivity. }
  split; [exact Hrun|]. split; [reflexivity|].
  unfold new_events, final. rewrite Hrun. cbn [snd w_trace].
  rewrite skipn_length_app. reflexivity.
Qed.

Definition fixed_clock (n : nat) : datetime :=
  mk_datetime (py "2026-11-04T21:00:00+09:00") (py "2026-11-04").

Definition fresh_world : world := mk_world (init_db None) 0 0 [].

Definition env_always_ok : environment :=
  mk_env fixed_clock (fun _ _ _ => Responds (Some (py "頑張ったね！次は何をする？"))).

Lemma generate_with_fallback_first_success_witness :
  generate_with_fallback env_always_ok (py "prompt") 0 fresh_world
    = (Returned (Some (py "頑張ったね！次は何をする？"), Some first_candidate, None),
       mk_world (init_db None) 0 1
         [EvGenerateContent first_candidate (py "prompt")])
  /\ hd_error MODEL_CANDIDATES = Some first_candidate
  /\ models_called
       (new_events (generate_with_fallback env_always_ok (py "prompt") 0)
          fresh_world)
     = [first_candidate].
Proof.
  apply (generate_with_fallback_first_success env_always_ok (py "prompt") 0
           fresh_world (py "頑張ったね！次は何をする？")).
  - reflexivity.
  - vm_compute. discriminate.
Defined.

(** The condition under which the loop sleeps before it goes on. *)
Definition waits (max_wait_seconds : Z) (retry_sec : option Z) : bool :=
  negb (max_wait_seconds =? 0) && truthy_int retry_sec
  && match retry_sec with
     | Some n => n <=? max_wait_seconds
     | None => false
     end.

Definition seconds (retry_sec : option Z) : Z :=
  match retry_sec with Some n => n | None => 0 end.

Definition after_call (w : world) (model prompt : pystr) : world :=
  mk_world (w_db w) (w_ticks w) (S (w_calls w))
    (w_trace w ++ [EvGenerateContent model prompt]).

Definition after_sleep (w : world) (secs : Z) : world :=
  mk_world (w_db w) (w_ticks w) (w_calls w) (w_trace w ++ [EvSleep secs]).

(** One iteration of the loop, as an equation. *)
Lemma fallback_loop_cons (env : environment) (model : pystr)
    (rest : list pystr) (prompt : pystr) (mw : Z) (lr : option Z) (w : world) :
  fallback_loop env (model :: rest) prompt mw lr w =
  let w1 := after_call w model prompt in
  match generate_content env (w_calls w) model prompt with
  | Responds text =>
    (Returned (if truthy_str text then (text, Some model, None)
               else (Some placeholder, Some model, None)), w1)
  | RaisesClientError status msg =>
    if is_rate_limit status msg then
      match _extract_retry_seconds msg with
      | Returned retry_sec =>
        if waits mw retry_sec then
          fallback_loop env rest prompt mw retry_sec
            (after_sleep w1 (seconds retry_sec))
        else fallback_loop env rest prompt mw retry_sec w1
      | Raised e => (Raised e, w1)
      end
    else (Returned (None, None, lr), w1)
  | RaisesException => (Returned (None, None, lr), w1)
  end.
Proof.
  cbn [fallback_loop]. unfold bind at 1, call_generate_content.
  fold (after_call w model prompt).
  destruct (generate_content env (w_calls w) model prompt)
    as [text|status msg|].
  - destruct (truthy_str text); reflexivity.
  - destruct (is_rate_limit status msg); [|reflexivity].
    unfold bind at 1, lift.
    destruct (_extract_retry_seconds msg) as [retry_sec|e]; [|reflexivity].
    fold (waits mw retry_sec). fold (seconds retry_sec).
    destruct (waits mw retry_sec); reflexivity.
  - reflexivity.
Qed.

(** What a run of the loop leaves untouched and what it adds: the
    store and the clock are not used, the trace grows by backend calls
    and sleeps, and the models called are an initial segment of the
    candidates, each called once. *)
Lemma fallback_loop_frame (env : environment) (prompt : pystr) (mw : Z) :
  forall (models : list pystr) (lr : option Z) (w : world) r w',
    fallback_loop env models prompt mw lr w = (r, w') ->
    w_db w' = w_db w /\ w_ticks w' = w_ticks w /\
    exists evs,
      w_trace w' = w_trace w ++ evs /\
      forallb is_gateway_event evs = true /\
      exists n, models_called evs = firstn n models.
Proof.
  induction models as [|model rest IH]; intros lr w r w' Hrun.
  - simpl in Hrun. injection Hrun as <- <-. repeat split; auto.
    exists []. rewrite app_nil_r. repeat split; auto.
    exists 0%nat. reflexivity.
  - rewrite fallback_loop_cons in Hrun. cbv zeta in Hrun.
    assert (Hstop : forall r0, (r0, after_call w model prompt) = (r, w') ->
      w_db w' = w_db w /\ w_ticks w' = w_ticks w /\
      exists evs, w_trace w' = w_trace w ++ evs /\
        forallb is_gateway_event evs = true /\
        exists n, models_called evs = firstn n (model :: rest)).
    { intros r0 H. injection H as <- <-. simpl. repeat split; auto.
      exists [EvGenerateContent model prompt]. repeat split; auto.
      exists 1%nat. reflexivity. }
    assert (Hnext : forall lr2 w2 evs0,
      fallback_loop env rest prompt mw lr2 w2 = (r, w') ->
      w_db w2 = w_db w -> w_ticks w2 = w_ticks w ->
      w_trace w2 = w_trace w ++ EvGenerateContent model prompt :: evs0 ->
      forallb is_gateway_event evs0 = true ->
      models_called evs0 = [] ->
      w_db w' = w_db w /\ w_ticks w' = w_ticks w /\
      exists evs, w_trace w' = w_trace w ++ evs /\
        forallb is_gateway_event evs = true /\
        exists n, models_called evs = firstn n (model :: rest)).
    { intros lr2 w2 evs0 H Hdb Htk Htr Hgw Hmc.
      destruct (IH _ _ _ _ H) as (Hd & Ht & evs & Hevs & Hall & n & Hn).
      rewrite Hd, Ht, Hevs, Htr. repeat split; auto.
      exists (EvGenerateContent model prompt :: evs0 ++ evs).
      rewrite <- app_assoc. simpl. split; [reflexivity|].
      rewrite forallb_app, Hgw, Hall. split; [reflexivity|].
      exists (S n). rewrite models_called_app, Hmc, Hn. reflexivity. }
    destruct (generate_content env (w_calls w) model prompt)
      as [text|status msg|]; [eapply Hstop; eassumption| |eapply Hstop; eassumption].
    destruct (is_rate_limit status msg); [|eapply Hstop; eassumption].
    destruct (_extract_retry_seconds msg) as [retry_sec|e];
      [|eapply Hstop; eassumption].
    destruct (waits mw retry_sec).
    + apply (Hnext _ _ [EvSleep (seconds retry_sec)] Hrun); auto.
      simpl. rewrite <- app_assoc. reflexivity.
    + apply (Hnext _ _ [] Hrun); auto.
Qed.

(** The shape of what the loop returns: text comes with the name of
    the candidate that produced it and without a delay; no text comes
    without a model name. *)
Lemma fallback_loop_shape (env : environment) (prompt : pystr) (mw : Z) :
  forall (models : list pystr) (lr : option Z) (w : world)
         text model retry w',
    fallback_loop env models prompt mw lr w
      = (Returned (text, model, retry), w') ->
    match text with
    | Some t => t <> [] /\ retry = None /\ exists m, model = Some m /\ In m models
    | None => model = None
    end.
Proof.
  induction models as [|m0 rest IH]; intros lr w text model retry w' Hrun.
  - simpl in Hrun. injection Hrun as <- <- <- <-. reflexivity.
  - rewrite fallback_loop_cons in Hrun. cbv zeta in Hrun.
    assert (Hnext : forall lr2 w2,
      fallback_loop env rest prompt mw lr2 w2
        = (Returned (text, model, retry), w') ->
      match text with
      | Some t => t <> [] /\ retry = None /\
                  exists m, model = Some m /\ In m (m0 :: rest)
      | None => model = None
      end).
    { intros lr2 w2 H. specialize (IH _ _ _ _ _ _ H).
      destruct text; auto.
      destruct IH as (? & ? & m & ? & ?). repeat split; auto.
      exists m. split; [assumption|right; assumption]. }
    destruct (generate_content env (w_calls w) m0 prompt)
      as [t|status msg|].
    + destruct t as [[|c t]|]; simpl in Hrun;
        injection Hrun as <- <- <- <-.
      * repeat split; [vm_compute; discriminate|].
        exists m0. split; [reflexivity|left; reflexivity].
      * repeat split; [discriminate|].
        exists m0. split; [reflexivity|left; reflexivity].
      * repeat split; [vm_compute; discriminate|].
        exists m0. split; [reflexivity|left; reflexivity].
    + destruct (is_rate_limit status msg).
      * destruct (_extract_retry_seconds msg) as [retry_sec|e];
          [|discriminate].
        destruct (waits mw retry_sec); eapply Hnext; eassumption.
      * injection Hrun as <- <- <- <-. reflexivity.
    + injection Hrun as <- <- <- <-. reflexivity.
Qed.

(** The loop returns unless the delay of some rate-limit message
    cannot be converted. *)
Lemma fallback_loop_returns (env : environment) (prompt : pystr) (mw : Z) :
  (forall i model status msg,
      generate_content env i model prompt = RaisesClientError status msg ->
      is_rate_limit status msg = true ->
      exists v, _extract_retry_seconds msg = Returned v) ->
  forall (models : list pystr) (lr : option Z) (w : world),
  exists triple w',
    fallback_loop env models prompt mw lr w = (Returned triple, w').
Proof.
  intros Hparse.
  induction models as [|m0 rest IH]; intros lr w.
  - simpl. eexists. eexists. reflexivity.
  - rewrite fallback_loop_cons. cbv zeta.
    destruct (generate_content env (w_calls w) m0 prompt)
      as [t|status msg|] eqn:Hcall.
    + eexists. eexists. reflexivity.
    + destruct (is_rate_limit status msg) eqn:Hrl.
      * destruct (Hparse _ _ _ _ Hcall Hrl) as [v ->].
        destruct (waits mw v); apply IH.
      * eexists. eexists. reflexivity.
    + eexists. eexists. reflexivity.
Qed.

(** A rate-limit message whose suggested delay is a 400-digit number. *)
Definition huge_delay_message : pystr :=
  py "429 RESOURCE_EXHAUSTED. Please retry in " ++ repeat 57%N 400 ++ py "s.".

Definition env_huge_delay : environment :=
  mk_env fixed_clock
    (fun _ _ _ => RaisesClientError (Some 429) huge_delay_message).

(** C1. The gateway does raise: when the first candidate fails with a
    rate-limit error whose message suggests a delay too large for a
    float, [int(float(...))] raises [OverflowError] inside the
    [except ClientError] handler, and the exception leaves
    [generate_with_fallback] after a single backend call. *)
Theorem generate_with_fallback_raises_on_huge_delay :
  generate_with_fallback env_huge_delay (py "prompt") 0 fresh_world
  = (Raised OverflowError,
     mk_world (init_db None) 0 1
       [EvGenerateContent first_candidate (py "prompt")]).
Proof. vm_compute. reflexivity. Qed.

(** The first call is rate limited and suggests waiting 5 seconds;
    every later call would succeed. *)
Definition env_retry_would_succeed : environment :=
  mk_env fixed_clock
    (fun i _ _ =>
       match i with
       | O => RaisesClientError (Some 429)
                (py "429 RESOURCE_EXHAUSTED. Please retry in 5s.")
       | S _ => Responds (Some (py "ok"))
       end).

(** C2. After the sleep the loop goes on with the next candidate: with
    [max_wait_seconds = 60] and a first call that asks to retry in 5
    seconds, the gateway sleeps 5 seconds and then calls
    [gemini-2.0-flash-lite]; [gemini-2.5-flash] is not called again. *)
Theorem generate_with_fallback_sleeps_then_advances :
  generate_with_fallback env_retry_would_succeed (py "prompt") 60 fresh_world
  = (Returned (Some (py "ok"), Some (py "gemini-2.0-flash-lite"), None),
     mk_world (init_db None) 0 2
       [EvGenerateContent (py "gemini-2.5-flash") (py "prompt");
        EvSleep 5;
        EvGenerateContent (py "gemini-2.0-flash-lite") (py "prompt")]).
Proof. vm_compute. reflexivity. Qed.

(** X1. No run of the gateway calls a candidate twice: the models
    called are an initial segment of [MODEL_CANDIDATES], whose entries
    are pairwise distinct. *)
Lemma generate_with_fallback_never_retries
    (env : environment) (prompt : pystr) (mw : Z) (w : world) :
  NoDup (models_called (new_events (generate_with_fallback env prompt mw) w))
  /\ exists n,
      models_called (new_events (generate_with_fallback env prompt mw) w)
      = firstn n MODEL_CANDIDATES.
Proof.
  unfold new_events, final, generate_with_fallback.
  destruct (fallback_loop env MODEL_CANDIDATES prompt mw None w)
    as [r w'] eqn:Hrun.
  destruct (fallback_loop_frame _ _ _ _ _ _ _ _ Hrun)
    as (_ & _ & evs & Hevs & _ & n & Hn).
  cbn [snd]. rewrite Hevs, skipn_length_app, Hn.
  split; [|exists n; reflexivity].
  assert (Hnd : NoDup MODEL_CANDIDATES).
  { unfold MODEL_CANDIDATES.
    repeat (constructor; [vm_compute; intuition discriminate|]).
    constructor. }
  clear -Hnd. revert n.
  induction Hnd as [|x l Hx Hl IH]; intros [|n]; simpl; try constructor.
  - intros Hin. apply Hx. eapply In_firstn. exact Hin.
  - apply IH.
Qed.

(** ** The store operations, as equations *)

(** The database after [INSERT INTO daily_logs] of one row. *)
Definition with_log (db : database) (uid date text reply : pystr)
    (model : option pystr) (ts : pystr) : database :=
  {| users := users db;
     daily_logs :=
       daily_logs db ++ [mk_log (next_rowid db) uid date text reply model ts];
     sqlite_sequence := next_rowid db |}.

Lemma sql_insert_daily_log_db_conn (db : database) uid date text reply model ts :
  sql_insert_daily_log db_conn uid date text reply model ts db
  = Returned (with_log db uid date text reply model ts).
Proof. reflexivity. Qed.

Lemma upsert_user_run (env : environment) (uid : pystr) (w : world) :
  upsert_user env uid w
  = (Returned tt,
     mk_world
       (sql_insert_or_ignore_user uid (isoformat (clock env (w_ticks w)))
          (w_db w))
       (S (w_ticks w)) (w_calls w) (w_trace w ++ [EvUpsertUser uid])).
Proof. reflexivity. Qed.

Lemma save_log_run (env : environment) uid date text reply model (w : world) :
  save_log env uid date text reply model w
  = (Returned tt,
     mk_world
       (with_log (w_db w) uid date text reply model
          (isoformat (clock env (w_ticks w))))
       (S (w_ticks w)) (w_calls w)
       (w_trace w ++ [EvSaveLog uid date text reply model])).
Proof. reflexivity. Qed.

Lemma get_recent_logs_run (uid : pystr) (limit : Z) (w : world) :
  get_recent_logs uid limit w
  = (sql_select_recent uid limit (w_db w),
     mk_world (w_db w) (w_ticks w) (w_calls w)
       (w_trace w ++ [EvGetRecentLogs uid limit])).
Proof.
  unfold get_recent_logs. run_step.
  destruct (sql_select_recent uid limit (w_db w)); reflexivity.
Qed.

Lemma sql_select_recent_in_range (uid : pystr) (limit : Z) (db : database) :
  - 2 ^ 63 <= limit < 2 ^ 63 ->
  sql_select_recent uid limit db
  = Returned (map project (selected_logs uid limit db)).
Proof.
  intros [Hlo Hhi]. unfold sql_select_recent.
  destruct (limit <? - 2 ^ 63) eqn:E1; [apply Z.ltb_lt in E1; lia|].
  destruct (2 ^ 63 <=? limit) eqn:E2; [apply Z.leb_le in E2; lia|].
  reflexivity.
Qed.

Lemma has_user_after_insert (uid ts : pystr) (db : database) :
  has_user uid (sql_insert_or_ignore_user uid ts db) = true.
Proof.
  unfold sql_insert_or_ignore_user.
  destruct (has_user uid db) eqn:E; [exact E|].
  unfold has_user. simpl. rewrite existsb_app. simpl.
  rewrite pystr_eqb_refl. apply orb_true_r.
Qed.

Lemma daily_logs_after_insert_user (uid ts : pystr) (db : database) :
  daily_logs (sql_insert_or_ignore_user uid ts db) = daily_logs db
  /\ sqlite_sequence (sql_insert_or_ignore_user uid ts db) = sqlite_sequence db.
Proof.
  unfold sql_insert_or_ignore_user. destruct (has_user uid db); auto.
Qed.

(** ** The handler, as equations *)

(** The world in which the handler calls the gateway: the user row is
    ensured, the date is read and the history is fetched. *)
Definition before_gateway (env : environment) (uid : pystr) (limit : Z)
    (w : world) : world :=
  mk_world
    (sql_insert_or_ignore_user uid (isoformat (clock env (w_ticks w))) (w_db w))
    (S (S (w_ticks w))) (w_calls w)
    (w_trace w ++ [EvUpsertUser uid; EvGetRecentLogs uid limit]).

(** [today_jst], read right after [upsert_user]. *)
Definition today_of (env : environment) (w : world) : pystr :=
  date_isoformat (clock env (S (w_ticks w))).

Definition history (env : environment) (uid : pystr) (limit : Z) (w : world)
  : list recent_row :=
  map project (selected_logs uid limit (w_db (before_gateway env uid limit w))).

Definition report_prompt (env : environment) (event : message_event)
    (uid : pystr) (w : world) : pystr :=
  build_daily_prompt (message_of event) (history env uid 10 w).

Definition profile_prompt (env : environment) (uid : pystr) (w : world)
  : pystr :=
  build_profile_prompt (history env uid 30 w).

(** What the report flow stores and sends for a gateway result. *)
Definition report_reply (text : option pystr) (retry_sec : option Z)
  : pystr :=
  match text with
  | Some t => t
  | None => report_fallback retry_sec
  end.

Definition report_model (text used_model : option pystr) : option pystr :=
  match text with
  | Some _ => used_model
  | None => None
  end.

Definition profile_reply (text : option pystr) (retry_sec : option Z)
  : pystr :=
  match text with
  | Some t => t
  | None => profile_fallback retry_sec
  end.

Lemma handle_message_report (env : environment) (event : message_event)
    (uid : pystr) (w : world) :
  source_user_id event = Some uid -> uid <> [] ->
  is_profile_query (message_of event) = false ->
  handle_message env event w =
  match generate_with_fallback env (report_prompt env event uid w) 0
          (before_gateway env uid 10 w) with
  | (Returned (text, used_model, retry_sec), w2) =>
    let reply := report_reply text retry_sec in
    let model := report_model text used_model in
    (Returned tt,
     mk_world
       (with_log (w_db w2) uid (today_of env w) (message_of event) reply model
          (isoformat (clock env (w_ticks w2))))
       (S (w_ticks w2)) (w_calls w2)
       (w_trace w2 ++
          [EvSaveLog uid (today_of env w) (message_of event) reply model;
           EvReplyText (reply_token event) reply]))
  | (Raised e, w2) => (Raised e, w2)
  end.
Proof.
  intros Hsrc Hne Hq. unfold handle_message. rewrite Hsrc.
  destruct uid as [|c u]; [congruence|].
  unfold bind at 1. rewrite upsert_user_run.
  unfold bind at 1, datetime_now. cbn [w_db w_ticks w_calls w_trace].
  rewrite Hq.
  unfold bind at 1. rewrite get_recent_logs_run.
  cbn [w_db w_ticks w_calls w_trace].
  rewrite sql_select_recent_in_range by (split; [vm_compute; discriminate|reflexivity]).
  unfold bind at 1.
  unfold report_prompt, history, before_gateway, today_of.
  cbn [w_db w_ticks w_calls w_trace].
  rewrite <- app_assoc. cbn [app].
  destruct (generate_with_fallback env _ 0 _) as [[[[text used_model] retry_sec]|e] w2];
    [|reflexivity].
  destruct text as [t|]; cbn [report_reply report_model];
    unfold bind at 1; rewrite save_log_run;
    unfold reply_text, emit; cbn [w_db w_ticks w_calls w_trace];
    rewrite <- app_assoc; reflexivity.
Qed.

Lemma handle_message_profile (env : environment) (event : message_event)
    (uid : pystr) (w : world) :
  source_user_id event = Some uid -> uid <> [] ->
  is_profile_query (message_of event) = true ->
  handle_message env event w =
  match generate_with_fallback env (profile_prompt env uid w) 0
          (before_gateway env uid 30 w) with
  | (Returned (text, used_model, retry_sec), w2) =>
    (Returned tt,
     mk_world (w_db w2) (w_ticks w2) (w_calls w2)
       (w_trace w2 ++
          [EvReplyText (reply_token event) (profile_reply text retry_sec)]))
  | (Raised e, w2) => (Raised e, w2)
  end.
Proof.
  intros Hsrc Hne Hq. unfold handle_message. rewrite Hsrc.
  destruct uid as [|c u]; [congruence|].
  unfold bind at 1. rewrite upsert_user_run.
  unfold bind at 1, datetime_now. cbn [w_db w_ticks w_calls w_trace].
  rewrite Hq.
  unfold bind at 1. rewrite get_recent_logs_run.
  cbn [w_db w_ticks w_calls w_trace].
  rewrite sql_select_recent_in_range by (split; [vm_compute; discriminate|reflexivity]).
  unfold bind at 1.
  unfold profile_prompt, history, before_gateway.
  cbn [w_db w_ticks w_calls w_trace].
  rewrite <- app_assoc. cbn [app].
  destruct (generate_with_fallback env _ 0 _) as [[[[text used_model] retry_sec]|e] w2];
    [|reflexivity].
  destruct text as [t|]; cbn [profile_reply]; reflexivity.
Qed.

(** The gateway, run by the handler, leaves the store and the clock as
    they are. *)
Lemma gateway_frame (env : environment) (prompt : pystr) (mw : Z)
    (w : world) r w2 :
  generate_with_fallback env prompt mw w = (r, w2) ->
  w_db w2 = w_db w /\ w_ticks w2 = w_ticks w /\
  exists evs, w_trace w2 = w_trace w ++ evs /\
              forallb is_gateway_event evs = true.
Proof.
  intros H. destruct (fallback_loop_frame _ _ _ _ _ _ _ _ H)
    as (Hd & Ht & evs & He & Hg & _).
  repeat split; auto. exists evs. auto.
Qed.

Lemma next_rowid_after_insert_user (uid ts : pystr) (db : database) :
  next_rowid (sql_insert_or_ignore_user uid ts db) = next_rowid db.
Proof.
  unfold next_rowid.
  destruct (daily_logs_after_insert_user uid ts db) as [-> ->]. reflexivity.
Qed.

(** The fallback text of the report flow, as the spec words it: the
    delay in seconds when one was parsed, a vague phrase otherwise. *)
Definition report_fallback_as_specified (retry_sec : option Z) : pystr :=
  py "ごめん、今AIの回数制限に当たってる…"
  ++ match retry_sec with
     | Some n => str_of_Z n ++ py "秒"
     | None => py "しばらく"
     end
  ++ py "後にもう一回送って！" ++ LF
  ++ py "（先にメモだけ残すね：そのまま続き送ってOK）".

(** C3 (amended). In the report flow, whatever the gateway returns is
    persisted and then sent: with no text, the stored reply is the
    fallback string and the model name is null; with text, the stored
    reply is that text with the model name.  The entry is appended for
    today's date, and the reply is the last effect.  The fallback
    holds the delay in seconds when a non-zero delay was parsed, and
    the vague phrase when none was parsed or the delay is 0. *)
Theorem report_flow_persists_then_replies
    (env : environment) (event : message_event) (uid : pystr) (w : world)
    (text used_model : option pystr) (retry_sec : option Z) (w2 : world) :
  source_user_id event = Some uid -> uid <> [] ->
  is_profile_query (message_of event) = false ->
  generate_with_fallback env (report_prompt env event uid w) 0
    (before_gateway env uid 10 w)
  = (Returned (text, used_model, retry_sec), w2) ->
  let reply := report_reply text retry_sec in
  let model := report_model text used_model in
  let w' := final (handle_message env event) w in
  outcome_of (handle_message env event) w = Returned tt
  /\ daily_logs (w_db w')
     = daily_logs (w_db w)
       ++ [mk_log (next_rowid (w_db w)) uid (today_of env w)
             (message_of event) reply model
             (isoformat (clock env (S (S (w_ticks w)))))]
  /\ (exists evs,
         new_events (handle_message env event) w
         = EvUpsertUser uid :: EvGetRecentLogs uid 10 :: evs ++
           [EvSaveLog uid (today_of env w) (message_of event) reply model;
            EvReplyText (reply_token event) reply]
         /\ forallb is_gateway_event evs = true)
  /\ (text = None -> reply = report_fallback retry_sec /\ model = None)
  /\ (forall t, text = Some t -> reply = t /\ model = used_model)
  /\ (forall n, retry_sec = Some n -> n <> 0 ->
        report_fallback retry_sec = report_fallback_as_specified (Some n))
  /\ (retry_sec = None \/ retry_sec = Some 0 ->
        report_fallback retry_sec = report_fallback_as_specified None).
Proof.
  intros Hsrc Hne Hq Hgw reply model w'.
  pose proof (handle_message_report env event uid w Hsrc Hne Hq) as Hrun.
  rewrite Hgw in Hrun. cbv zeta in Hrun.
  destruct (gateway_frame _ _ _ _ _ _ Hgw) as (Hdb & Htk & evs & Htr & Hall).
  cbn [before_gateway w_db w_ticks w_trace] in Hdb, Htk, Htr.
  unfold w', new_events, outcome_of, final. rewrite Hrun. cbn [fst snd].
  split; [reflexivity|]. split.
  { cbn [w_db with_log daily_logs]. unfold next_rowid.
    rewrite Hdb, Htk.
    destruct (daily_logs_after_insert_user uid
                (isoformat (clock env (w_ticks w))) (w_db w)) as [-> ->].
    reflexivity. }
  split.
  { exists evs. split; [|exact Hall]. cbn [w_trace]. rewrite Htr.
    rewrite <- !app_assoc. rewrite skipn_length_app. reflexivity. }
  split; [intros ->; split; reflexivity|].
  split; [intros t ->; split; reflexivity|].
  split.
  - intros n -> Hn. unfold report_fallback, report_fallback_as_specified,
      wait_phrase, truthy_int.
    destruct (n =? 0) eqn:E; [apply Z.eqb_eq in E; contradiction|].
    reflexivity.
  - intros [-> | ->];
      unfold report_fallback, report_fallback_as_specified, wait_phrase;
      cbn [truthy_int Z.eqb negb]; reflexivity.
Qed.

Definition report_event : message_event :=
  mk_event (Some (py "U1")) (Some (py "今日就活した")) (py "reply-token").

Lemma report_flow_persists_then_replies_witness :
  outcome_of (handle_message env_always_ok report_event) fresh_world
  = Returned tt
  /\ daily_logs
       (w_db (final (handle_message env_always_ok report_event) fresh_world))
     = [mk_log 1 (py "U1") (py "2026-11-04") (py "今日就活した")
          (py "頑張ったね！次は何をする？") (Some first_candidate)
          (py "2026-11-04T21:00:00+09:00")].
Proof.
  destruct (report_flow_persists_then_replies env_always_ok report_event
              (py "U1") fresh_world
              (Some (py "頑張ったね！次は何をする？")) (Some first_candidate) None
              (after_call (before_gateway env_always_ok (py "U1") 10 fresh_world)
                 first_candidate
                 (report_prompt env_always_ok report_event (py "U1")
                    fresh_world)))
    as (Hout & Hlogs & _).
  - reflexivity.
  - vm_compute. discriminate.
  - vm_compute. reflexivity.
  - vm_compute. reflexivity.
  - split; [exact Hout|]. rewrite Hlogs. vm_compute. reflexivity.
Defined.

(** Every candidate is rate limited and the message suggests half a
    second. *)
Definition env_zero_delay : environment :=
  mk_env fixed_clock
    (fun _ _ _ =>
       RaisesClientError (Some 429)
         (py "429 RESOURCE_EXHAUSTED. Please retry in 0.5s.")).

(** C3, as stated, fails when the parsed delay is 0: the delay is known,
    yet the stored and sent fallback holds the vague phrase, not
    ["0秒"]. *)
Lemma report_flow_zero_delay_counterexample :
  let w1 := before_gateway env_zero_delay (py "U1") 10 fresh_world in
  let prompt := report_prompt env_zero_delay report_event (py "U1") fresh_world in
  let w' := final (handle_message env_zero_delay report_event) fresh_world in
  outcome_of (generate_with_fallback env_zero_delay prompt 0) w1
  = Returned (None, None, Some 0)
  /\ map ai_reply (daily_logs (w_db w')) = [report_fallback (Some 0)]
  /\ report_fallback (Some 0) <> report_fallback_as_specified (Some 0)
  /\ contains (py "0秒") (report_fallback (Some 0)) = false
  /\ contains (py "しばらく") (report_fallback (Some 0)) = true.
Proof.
  cbv zeta. repeat split; try (vm_compute; reflexivity).
  vm_compute. discriminate.
Qed.

(** Every candidate is rate limited with a suggested delay of 36
    seconds. *)
Definition env_rate_limited_36 : environment :=
  mk_env fixed_clock
    (fun _ _ _ =>
       RaisesClientError (Some 429)
         (py "429 RESOURCE_EXHAUSTED. {'retryDelay': '36s'}")).

(** The end-to-end scenario of the spec: all four candidates are rate
    limited with a parsed delay of 36 seconds and no in-request wait;
    the handler persists one fallback entry with a null model name and
    replies with a text that holds ["36秒"]. *)
Lemma report_flow_rate_limited_scenario :
  let w' := final (handle_message env_rate_limited_36 report_event) fresh_world in
  outcome_of (handle_message env_rate_limited_36 report_event) fresh_world
  = Returned tt
  /\ models_called (w_trace w') = MODEL_CANDIDATES
  /\ map (fun r => (ai_reply r, model_used r)) (daily_logs (w_db w'))
     = [(report_fallback (Some 36), None)]
  /\ last (w_trace w') EvListAllUsers
     = EvReplyText (py "reply-token") (report_fallback (Some 36))
  /\ contains (py "36秒") (report_fallback (Some 36)) = true.
Proof. cbv zeta. repeat split; vm_compute; reflexivity. Qed.

(** ** The profile flow *)

Definition is_save_log (ev : event) : bool :=
  match ev with
  | EvSaveLog _ _ _ _ _ => true
  | _ => false
  end.

Lemma gateway_events_no_save (evs : list event) :
  forallb is_gateway_event evs = true ->
  existsb is_save_log evs = false.
Proof.
  induction evs as [|ev evs IH]; simpl; [reflexivity|].
  intros H. apply andb_true_iff in H as [Hev Hrest].
  rewrite (IH Hrest). destruct ev; simpl in *; congruence.
Qed.

(** C6. An event routed to the profile flow leaves [daily_logs] as it
    was, whether the gateway returns text, returns none or raises: no
    row is added, the rowid counter is unchanged and no [save_log] is
    among the effects. *)
Theorem profile_flow_persists_nothing
    (env : environment) (event : message_event) (uid : pystr) (w : world) :
  source_user_id event = Some uid -> uid <> [] ->
  is_profile_query (message_of event) = true ->
  let w' := final (handle_message env event) w in
  daily_logs (w_db w') = daily_logs (w_db w)
  /\ sqlite_sequence (w_db w') = sqlite_sequence (w_db w)
  /\ existsb is_save_log (new_events (handle_message env event) w) = false.
Proof.
  intros Hsrc Hne Hq w'.
  pose proof (handle_message_profile env event uid w Hsrc Hne Hq) as Hrun.
  destruct (generate_with_fallback env (profile_prompt env uid w) 0
              (before_gateway env uid 30 w)) as [r w2] eqn:Hgw.
  destruct (gateway_frame _ _ _ _ _ _ Hgw) as (Hdb & Htk & evs & Htr & Hall).
  cbn [before_gateway w_db w_ticks w_trace] in Hdb, Htk, Htr.
  destruct (daily_logs_after_insert_user uid
              (isoformat (clock env (w_ticks w))) (w_db w)) as [Hl Hs].
  pose proof (gateway_events_no_save evs Hall) as Hns.
  unfold w', new_events, final. rewrite Hrun.
  destruct r as [[[text used_model] retry_sec]|e]; cbn [snd w_db w_trace];
    rewrite Hdb, Hl, Hs, Htr, <- !app_assoc, skipn_length_app;
    repeat split; cbn [app existsb is_save_log orb];
    rewrite ?existsb_app, Hns; reflexivity.
Qed.

Definition profile_event : message_event :=
  mk_event (Some (py "U1")) (Some (py " 今の私はどんな感じ？ ")) (py "reply-token").

Lemma profile_flow_persists_nothing_witness :
  let w' := final (handle_message env_rate_limited_36 profile_event) fresh_world in
  daily_logs (w_db w') = daily_logs (w_db fresh_world)
  /\ sqlite_sequence (w_db w') = sqlite_sequence (w_db fresh_world)
  /\ existsb is_save_log
       (new_events (handle_message env_rate_limited_36 profile_event)
          fresh_world) = false.
Proof.
  apply (profile_flow_persists_nothing env_rate_limited_36 profile_event
           (py "U1") fresh_world).
  - reflexivity.
  - vm_compute. discriminate.
  - vm_compute. reflexivity.
Defined.

(** ** The user row comes first *)

Lemma has_user_in (uid : pystr) (db : database) :
  has_user uid db = true <-> In uid (sql_select_user_ids db).
Proof.
  unfold has_user, sql_select_user_ids. rewrite existsb_exists, in_map_iff.
  split; intros (u & H1 & H2); exists u.
  - apply pystr_eqb_eq in H2. auto.
  - split; [assumption|]. apply pystr_eqb_eq. assumption.
Qed.

Lemma push_each_run (users : list pystr) (w : world) :
  push_each users w
  = (Returned tt,
     mk_world (w_db w) (w_ticks w) (w_calls w)
       (w_trace w ++ map (fun u => EvPushText u DAILY_QUESTION) users)).
Proof.
  revert w. induction users as [|u rest IH]; intros w.
  - simpl. rewrite app_nil_r. destruct w; reflexivity.
  - cbn [push_each]. unfold bind at 1, push_text, emit.
    rewrite IH. cbn [w_db w_ticks w_calls w_trace map].
    rewrite <- app_assoc. reflexivity.
Qed.

(** The nightly job reads the users once and pushes the daily question
    to each of them, in table order. *)
Lemma nightly_checkin_job_run (w : world) :
  nightly_checkin_job w
  = (Returned tt,
     mk_world (w_db w) (w_ticks w) (w_calls w)
       (w_trace w ++ EvListAllUsers ::
          map (fun u => EvPushText u DAILY_QUESTION)
            (sql_select_user_ids (w_db w)))).
Proof.
  unfold nightly_checkin_job, list_all_users.
  unfold bind at 1. unfold bind at 1, emit. unfold bind at 1, get_db, ret.
  cbn [w_db w_ticks w_calls w_trace]. rewrite push_each_run.
  cbn [w_db w_ticks w_calls w_trace]. rewrite <- app_assoc. reflexivity.
Qed.

Definition save_log_user (ev : event) : option pystr :=
  match ev with
  | EvSaveLog uid _ _ _ _ => Some uid
  | _ => None
  end.

(** C10. For an event with a usable sender id, the first effect of the
    handler is [upsert_user] for that id, in the profile flow as in the
    report flow; afterwards the user row exists, so the nightly job
    pushes to that user; every row the handler appends to [daily_logs],
    and every [save_log] among the later effects, carries that same
    id. *)
Theorem handler_ensures_user_first
    (env : environment) (event : message_event) (uid : pystr) (w : world) :
  source_user_id event = Some uid -> uid <> [] ->
  let w' := final (handle_message env event) w in
  (exists rest,
      new_events (handle_message env event) w = EvUpsertUser uid :: rest
      /\ forall ev u, In ev rest -> save_log_user ev = Some u -> u = uid)
  /\ has_user uid (w_db w') = true
  /\ In (EvPushText uid DAILY_QUESTION) (new_events nightly_checkin_job w')
  /\ exists added,
      daily_logs (w_db w') = daily_logs (w_db w) ++ added
      /\ Forall (fun r => log_user_id r = uid
                          /\ has_user (log_user_id r) (w_db w') = true) added.
Proof.
  intros Hsrc Hne w'.
  assert (Hnight : forall w0, has_user uid (w_db w0) = true ->
            In (EvPushText uid DAILY_QUESTION)
               (new_events nightly_checkin_job w0)).
  { intros w0 Hu. unfold new_events, final.
    rewrite nightly_checkin_job_run. cbn [snd w_trace].
    rewrite skipn_length_app. right.
    apply (in_map (fun u => EvPushText u DAILY_QUESTION)).
    apply has_user_in. exact Hu. }
  assert (Hgwev : forall evs ev u, forallb is_gateway_event evs = true ->
            In ev evs -> save_log_user ev = Some u -> u = uid).
  { intros evs ev u Hall Hin Hs. rewrite forallb_forall in Hall.
    specialize (Hall _ Hin). destruct ev; simpl in *; congruence. }
  pose proof (has_user_after_insert uid
                (isoformat (clock env (w_ticks w))) (w_db w)) as Hhas.
  destruct (daily_logs_after_insert_user uid
              (isoformat (clock env (w_ticks w))) (w_db w)) as [Hl Hs].
  destruct (is_profile_query (message_of event)) eqn:Hq.
  - pose proof (handle_message_profile env event uid w Hsrc Hne Hq) as Hrun.
    destruct (generate_with_fallback env (profile_prompt env uid w) 0
                (before_gateway env uid 30 w)) as [r w2] eqn:Hgw.
    destruct (gateway_frame _ _ _ _ _ _ Hgw) as (Hdb & Htk & evs & Htr & Hall).
    cbn [before_gateway w_db w_ticks w_trace] in Hdb, Htk, Htr.
    assert (Hw' : w_db w' = w_db w2 /\
              exists tl, w_trace w' = w_trace w2 ++ tl /\
                forall ev u, In ev tl -> save_log_user ev = Some u -> u = uid).
    { unfold w', final. rewrite Hrun.
      destruct r as [[[text used_model] retry_sec]|e]; cbn [snd w_db w_trace].
      - split; [reflexivity|]. eexists. split; [reflexivity|].
        intros ev u [<-|[]] Hsv. discriminate.
      - split; [reflexivity|]. exists []. rewrite app_nil_r.
        split; [reflexivity|]. intros ev u []. }
    destruct Hw' as (Hdb' & tl & Htr' & Htl).
    assert (Hu : has_user uid (w_db w') = true) by (rewrite Hdb', Hdb; exact Hhas).
    split; [|split; [exact Hu|split; [apply Hnight; exact Hu|]]].
    + exists (EvGetRecentLogs uid 30 :: evs ++ tl). split.
      * unfold new_events. fold w'. rewrite Htr', Htr, <- !app_assoc.
        rewrite skipn_length_app. reflexivity.
      * intros ev u [<-|Hin] Hsv; [discriminate|].
        apply in_app_or in Hin as [Hin|Hin]; eauto.
    + exists []. rewrite app_nil_r, Hdb', Hdb, Hl. split; [reflexivity|constructor].
  - pose proof (handle_message_report env event uid w Hsrc Hne Hq) as Hrun.
    destruct (generate_with_fallback env (report_prompt env event uid w) 0
                (before_gateway env uid 10 w)) as [r w2] eqn:Hgw.
    destruct (gateway_frame _ _ _ _ _ _ Hgw) as (Hdb & Htk & evs & Htr & Hall).
    cbn [before_gateway w_db w_ticks w_trace] in Hdb, Htk, Htr.
    destruct r as [[[text used_model] retry_sec]|e]; cbv zeta in Hrun.
    + assert (Hu : has_user uid (w_db w') = true).
      { unfold w', final. rewrite Hrun. cbn [snd w_db].
        unfold has_user, with_log. cbn [users]. fold (has_user uid (w_db w2)).
        rewrite Hdb. exact Hhas. }
      split; [|split; [exact Hu|split; [apply Hnight; exact Hu|]]].
      * eexists. split.
        -- unfold new_events. fold w'. unfold w', final. rewrite Hrun.
           cbn [snd w_trace]. rewrite Htr, <- !app_assoc.
           rewrite skipn_length_app. reflexivity.
        -- intros ev u [<-|Hin] Hsv; [discriminate|].
           apply in_app_or in Hin as [Hin|[<-|[<-|[]]]]; eauto;
             simpl in Hsv; congruence.
      * eexists. split.
        -- unfold w', final. rewrite Hrun. cbn [snd w_db with_log daily_logs].
           rewrite Hdb, Hl. reflexivity.
        -- constructor; [|constructor]. cbn [log_user_id].
           split; [reflexivity|exact Hu].
    + assert (Hu : has_user uid (w_db w') = true).
      { unfold w', final. rewrite Hrun. cbn [snd]. rewrite Hdb. exact Hhas. }
      split; [|split; [exact Hu|split; [apply Hnight; exact Hu|]]].
      * exists (EvGetRecentLogs uid 10 :: evs). split.
        -- unfold new_events. fold w'. unfold w', final. rewrite Hrun.
           cbn [snd]. rewrite Htr, <- !app_assoc.
           rewrite skipn_length_app. reflexivity.
        -- intros ev u [<-|Hin] Hsv; [discriminate|]. eauto.
      * exists []. rewrite app_nil_r. unfold w', final. rewrite Hrun.
        cbn [snd]. rewrite Hdb, Hl. split; [reflexivity|constructor].
Qed.

Lemma handler_ensures_user_first_witness :
  let w' := final (handle_message env_rate_limited_36 profile_event) fresh_world in
  (exists rest,
      new_events (handle_message env_rate_limited_36 profile_event) fresh_world
      = EvUpsertUser (py "U1") :: rest
      /\ forall ev u, In ev rest -> save_log_user ev = Some u -> u = py "U1")
  /\ has_user (py "U1") (w_db w') = true
  /\ In (EvPushText (py "U1") DAILY_QUESTION)
        (new_events nightly_checkin_job w')
  /\ exists added,
      daily_logs (w_db w') = daily_logs (w_db fresh_world) ++ added
      /\ Forall (fun r => log_user_id r = py "U1"
                          /\ has_user (log_user_id r) (w_db w') = true) added.
Proof.
  apply (handler_ensures_user_first env_rate_limited_36 profile_event
           (py "U1") fresh_world).
  - reflexivity.
  - vm_compute. discriminate.
Defined.

(** ** The store *)

(** The primary key of [users]: no two rows with one [user_id]. *)
Definition users_pk (db : database) : Prop :=
  NoDup (map user_id (users db)).

(** The rows of [users] with a given id. *)
Definition rows_of_user (uid : pystr) (db : database) : list user_row :=
  filter (fun u => pystr_eqb (user_id u) uid) (users db).

Lemma rows_of_absent_user (uid : pystr) (l : list user_row) :
  existsb (fun u => pystr_eqb (user_id u) uid) l = false ->
  filter (fun u => pystr_eqb (user_id u) uid) l = [].
Proof.
  induction l as [|u l IH]; simpl; [reflexivity|].
  destruct (pystr_eqb (user_id u) uid); simpl; [discriminate|exact IH].
Qed.

Lemma rows_of_present_user (uid : pystr) (l : list user_row) :
  NoDup (map user_id l) ->
  existsb (fun u => pystr_eqb (user_id u) uid) l = true ->
  List.length (filter (fun u => pystr_eqb (user_id u) uid) l) = 1%nat.
Proof.
  induction l as [|u l IH]; simpl; [discriminate|].
  intros Hnd Hex. inversion Hnd as [|x xs Hnotin Hnd']; subst.
  destruct (pystr_eqb (user_id u) uid) eqn:E.
  - apply pystr_eqb_eq in E. simpl. f_equal.
    rewrite rows_of_absent_user; [reflexivity|].
    destruct (existsb (fun u0 => pystr_eqb (user_id u0) uid) l) eqn:E2;
      [|reflexivity].
    exfalso. apply Hnotin. apply existsb_exists in E2 as (v & Hv & Hveq).
    apply pystr_eqb_eq in Hveq. rewrite E, <- Hveq. apply in_map. exact Hv.
  - simpl in Hex. apply IH; assumption.
Qed.

Lemma users_pk_insert (uid ts : pystr) (db : database) :
  users_pk db -> users_pk (sql_insert_or_ignore_user uid ts db).
Proof.
  unfold users_pk, sql_insert_or_ignore_user. intros Hnd.
  destruct (has_user uid db) eqn:E; [exact Hnd|].
  cbn [users]. rewrite map_app. cbn [map user_id].
  apply NoDup_app; [exact Hnd|repeat constructor; intros []|].
  intros x Hx [->|[]].
  assert (has_user x db = true) by (apply has_user_in; exact Hx).
  congruence.
Qed.

(** C9. Two calls of [upsert_user] with one id leave the database as
    one call does: the second call changes nothing, whatever the clock
    reads by then.  Under the primary key of [users] there is exactly
    one row for the id; it is the row that was there before, or, for a
    new id, the row stamped with the clock reading of the first call. *)
Theorem upsert_user_idempotent
    (env : environment) (uid : pystr) (w : world) :
  users_pk (w_db w) ->
  let w1 := final (upsert_user env uid) w in
  let w2 := final (upsert_user env uid) w1 in
  w_db w2 = w_db w1
  /\ List.length (rows_of_user uid (w_db w2)) = 1%nat
  /\ users_pk (w_db w2)
  /\ users (w_db w2)
     = users (w_db w)
       ++ (if has_user uid (w_db w) then []
           else [mk_user uid (isoformat (clock env (w_ticks w)))])
  /\ daily_logs (w_db w2) = daily_logs (w_db w).
Proof.
  intros Hpk w1 w2.
  unfold w2, w1, final. rewrite !upsert_user_run. cbn [snd w_db w_ticks].
  set (t1 := isoformat (clock env (w_ticks w))).
  set (t2 := isoformat (clock env (S (w_ticks w)))).
  assert (Hsame : sql_insert_or_ignore_user uid t2
                    (sql_insert_or_ignore_user uid t1 (w_db w))
                  = sql_insert_or_ignore_user uid t1 (w_db w)).
  { unfold sql_insert_or_ignore_user at 1.
    rewrite has_user_after_insert. reflexivity. }
  rewrite Hsame. split; [reflexivity|]. split.
  { unfold rows_of_user. apply rows_of_present_user.
    - apply users_pk_insert. exact Hpk.
    - apply (has_user_after_insert uid t1 (w_db w)). }
  split; [apply users_pk_insert; exact Hpk|].
  unfold sql_insert_or_ignore_user.
  destruct (has_user uid (w_db w)); cbn [users daily_logs];
    rewrite ?app_nil_r; split; reflexivity.
Qed.

Lemma upsert_user_idempotent_witness :
  let w1 := final (upsert_user env_always_ok (py "U1")) fresh_world in
  let w2 := final (upsert_user env_always_ok (py "U1")) w1 in
  w_db w2 = w_db w1
  /\ List.length (rows_of_user (py "U1") (w_db w2)) = 1%nat
  /\ users_pk (w_db w2)
  /\ users (w_db w2)
     = users (w_db fresh_world)
       ++ (if has_user (py "U1") (w_db fresh_world) then []
           else [mk_user (py "U1")
                   (isoformat (clock env_always_ok (w_ticks fresh_world)))])
  /\ daily_logs (w_db w2) = daily_logs (w_db fresh_world).
Proof.
  apply (upsert_user_idempotent env_always_ok (py "U1") fresh_world).
  constructor.
Defined.

(** Whether or not the user exists, [save_log] returns normally and
    appends exactly one row; the rows that were there stay as they
    were, and [users] is not touched. *)
Lemma save_log_appends_one
    (env : environment) uid date text reply model (w : world) :
  let w' := final (save_log env uid date text reply model) w in
  outcome_of (save_log env uid date text reply model) w = Returned tt
  /\ daily_logs (w_db w')
     = daily_logs (w_db w)
       ++ [mk_log (next_rowid (w_db w)) uid date text reply model
             (isoformat (clock env (w_ticks w)))]
  /\ users (w_db w') = users (w_db w).
Proof.
  unfold final, outcome_of. rewrite save_log_run. repeat split.
Qed.

(** C8. [save_log] for an id that is in no row of [users] does not
    fail: on a database with no user at all it returns normally and
    leaves one row in [daily_logs] whose [user_id] references no
    user. *)
Theorem save_log_unknown_user_inserts_orphan :
  let m := save_log env_always_ok (py "U-unknown") (py "2026-11-04")
             (py "hello") (py "reply") None in
  let w' := final m fresh_world in
  has_user (py "U-unknown") (w_db fresh_world) = false
  /\ outcome_of m fresh_world = Returned tt
  /\ daily_logs (w_db w')
     = [mk_log 1 (py "U-unknown") (py "2026-11-04") (py "hello") (py "reply")
          None (py "2026-11-04T21:00:00+09:00")]
  /\ users (w_db w') = []
  /\ has_user (py "U-unknown") (w_db w') = false.
Proof. cbv zeta. repeat split; vm_compute; reflexivity. Qed.

(** *** [get_recent_logs] *)

(** Rowids grow with insertion: [daily_logs] is kept in insertion
    order, and [AUTOINCREMENT] gives every new row a larger id. *)
Definition ids_increasing (db : database) : Prop :=
  StronglySorted Z.lt (map log_id (daily_logs db)).

Lemma insert_desc_smallest (r : log_row) (rows : list log_row) :
  Forall (fun x => log_id r < log_id x) rows ->
  insert_desc r rows = rows ++ [r].
Proof.
  induction 1 as [|x rows Hx Hall IH]; simpl; [reflexivity|].
  destruct (log_id x <=? log_id r) eqn:E; [apply Z.leb_le in E; lia|].
  rewrite IH. reflexivity.
Qed.

Lemma order_by_id_desc_rev (rows : list log_row) :
  StronglySorted Z.lt (map log_id rows) ->
  order_by_id_desc rows = rev rows.
Proof.
  induction rows as [|r rows IH]; simpl; [reflexivity|].
  intros Hs. inversion Hs as [|x xs Hs' Hall]; subst.
  rewrite (IH Hs'). apply insert_desc_smallest.
  apply Forall_rev. rewrite Forall_map in Hall. exact Hall.
Qed.

Lemma sorted_ids_filter (p : log_row -> bool) (rows : list log_row) :
  StronglySorted Z.lt (map log_id rows) ->
  StronglySorted Z.lt (map log_id (filter p rows)).
Proof.
  induction rows as [|r rows IH]; simpl; [constructor|].
  intros Hs. inversion Hs as [|x xs Hs' Hall]; subst.
  destruct (p r); [|apply IH; exact Hs'].
  simpl. constructor; [apply IH; exact Hs'|].
  rewrite Forall_map in *. rewrite Forall_forall in *.
  intros y Hy. apply Hall. apply filter_In in Hy. tauto.
Qed.




Lemma where_user_id_none (uid : pystr) (rows : list log_row) :
  (forall r, In r rows -> log_user_id r <> uid) ->
  where_user_id uid rows = [].
Proof.
  unfold where_user_id. induction rows as [|r rows IH]; simpl; [reflexivity|].
  intros H. destruct (pystr_eqb (log_user_id r) uid) eqn:E.
  - apply pystr_eqb_eq in E. exfalso. apply (H r); auto.
  - apply IH. intros r' Hr'. apply H. auto.
Qed.


(** The rows selected under the rowid invariant: the user's rows,
    newest first, cut at [limit]. *)
Lemma selected_logs_newest_first (uid : pystr) (limit : Z) (db : database) :
  ids_increasing db -> 0 <= limit ->
  selected_logs uid limit db
  = firstn (Z.to_nat limit) (rev (where_user_id uid (daily_logs db))).
Proof.
  intros Hinc Hlim. unfold selected_logs, sql_limit.
  destruct (limit <? 0) eqn:E; [apply Z.ltb_lt in E; lia|].
  rewrite order_by_id_desc_rev; [reflexivity|].
  apply sorted_ids_filter. exact Hinc.
Qed.





Lemma max_rowid_ge (rows : list log_row) :
  Forall (fun r => log_id r <= max_rowid rows) rows.
Proof.
  induction rows as [|r rows IH]; simpl; constructor; [lia|].
  eapply Forall_impl; [|exact IH]. simpl. intros; lia.
Qed.

Lemma sorted_snoc (l : list Z) (x : Z) :
  StronglySorted Z.lt l -> Forall (fun y => y < x) l ->
  StronglySorted Z.lt (l ++ [x]).
Proof.
  induction l as [|y l IH]; simpl; intros Hs Hall.
  - repeat constructor.
  - inversion Hs as [|? ? Hs' Hy]; subst.
    inversion Hall as [|? ? Hyx Hall']; subst.
    constructor; [apply IH; assumption|].
    apply Forall_app. split; [exact Hy|]. repeat constructor. exact Hyx.
Qed.

Lemma ids_increasing_with_log (db : database) uid date text reply model ts :
  ids_increasing db ->
  ids_increasing (with_log db uid date text reply model ts).
Proof.
  unfold ids_increasing, with_log. cbn [daily_logs]. intros Hs.
  rewrite map_app. cbn [map log_id]. apply sorted_snoc; [exact Hs|].
  rewrite Forall_map. eapply Forall_impl; [|apply max_rowid_ge].
  simpl. intros r Hr. unfold next_rowid. lia.
Qed.

Lemma ids_increasing_insert_user (uid ts : pystr) (db : database) :
  ids_increasing db -> ids_increasing (sql_insert_or_ignore_user uid ts db).
Proof.
  unfold ids_increasing.
  destruct (daily_logs_after_insert_user uid ts db) as [-> _]. auto.
Qed.






(** ** The matcher against the language of a pattern *)

Lemma strip_prefix_app (l s : pystr) : strip_prefix l (l ++ s) = Some s.
Proof.
  induction l as [|a l IH]; simpl; [destruct s; reflexivity|].
  rewrite N.eqb_refl. exact IH.
Qed.

Lemma strip_prefix_some (l s s' : pystr) :
  strip_prefix l s = Some s' -> s = l ++ s'.
Proof.
  revert s. induction l as [|a l IH]; intros s H.
  - destruct s; simpl in H; injection H as <-; reflexivity.
  - destruct s as [|b s]; simpl in H; [discriminate|].
    destruct (a =? b)%N eqn:E; [|discriminate].
    apply N.eqb_eq in E. subst b. simpl. f_equal. apply IH. exact H.
Qed.

Lemma star_class_complete {A : Type} (c : charclass) (m s' : pystr)
    (k : pystr -> option A) :
  Forall (fun y => c y = true) m ->
  k s' <> None ->
  star_class c (m ++ s') k <> None.
Proof.
  intros Hm Hk. induction Hm as [|y m Hy Hm IH]; simpl.
  - destruct s' as [|x t]; [exact Hk|].
    simpl. destruct (c x); [|exact Hk].
    destruct (star_class c t k); [discriminate|exact Hk].
  - rewrite Hy. destruct (star_class c (m ++ s') k); [discriminate|].
    contradiction.
Qed.

Lemma star_class_sound {A : Type} (c : charclass) (s : pystr)
    (k : pystr -> option A) (res : A) :
  star_class c s k = Some res ->
  exists m s', s = m ++ s' /\ Forall (fun y => c y = true) m
               /\ k s' = Some res.
Proof.
  induction s as [|x s IH]; simpl; intros H.
  - exists [], []. repeat split; [constructor|exact H].
  - destruct (c x) eqn:Hx.
    + destruct (star_class c s k) as [r|] eqn:Hs.
      * injection H as <-. destruct (IH eq_refl) as (m & s' & -> & Hm & Hk).
        exists (x :: m), s'. repeat split; [constructor; assumption|exact Hk].
      * exists [], (x :: s). repeat split; [constructor|exact H].
    + exists [], (x :: s). repeat split; [constructor|exact H].
Qed.

(** Completeness at one position: if a prefix of the subject is in the
    language and the continuation accepts what follows, the matcher
    succeeds. *)
Lemma bt_complete (r : regex) (m : pystr) :
  matches r m ->
  forall (s' : pystr) (cs : captures)
         (k : pystr -> captures -> option captures),
    (forall cs', k s' cs' <> None) ->
    bt r (m ++ s') cs k <> None.
Proof.
  induction 1 as [l|c x m Hx Hm|c m Hm|r|r m Hr IH|r1 r2 m1 m2 H1 IH1 H2 IH2
                  |i r m Hr IH]; intros s' cs k Hk; cbn [bt].
  - rewrite strip_prefix_app. apply Hk.
  - simpl. rewrite Hx. apply star_class_complete; [exact Hm|apply Hk].
  - apply star_class_complete; [exact Hm|apply Hk].
  - simpl. destruct (bt r s' cs k); [discriminate|apply Hk].
  - specialize (IH s' cs k Hk).
    destruct (bt r (m ++ s') cs k); [discriminate|contradiction].
  - rewrite <- app_assoc. apply IH1. intros cs'. apply IH2. exact Hk.
  - apply IH. intros cs'. apply Hk.
Qed.

(** Soundness at one position: a success consumed a prefix that is in
    the language. *)
Lemma bt_sound (r : regex) :
  forall (s : pystr) (cs : captures)
         (k : pystr -> captures -> option captures) (res : captures),
    bt r s cs k = Some res ->
    exists m s' cs', s = m ++ s' /\ matches r m /\ k s' cs' = Some res.
Proof.
  induction r as [l|c|c|r IH|r1 IH1 r2 IH2|i r IH]; intros s cs k res H;
    cbn [bt] in H.
  - destruct (strip_prefix l s) as [s'|] eqn:E; [|discriminate].
    apply strip_prefix_some in E. exists l, s', cs.
    repeat split; [exact E|constructor|exact H].
  - unfold plus_class in H. destruct s as [|x s]; [discriminate|].
    destruct (c x) eqn:Hx; [|discriminate].
    apply star_class_sound in H as (m & s' & -> & Hm & Hk).
    exists (x :: m), s', cs. repeat split; [constructor; assumption|exact Hk].
  - apply star_class_sound in H as (m & s' & -> & Hm & Hk).
    exists m, s', cs. repeat split; [constructor; assumption|exact Hk].
  - destruct (bt r s cs k) as [res'|] eqn:E.
    + injection H as <-. destruct (IH _ _ _ _ E) as (m & s' & cs' & -> & Hm & Hk).
      exists m, s', cs'. repeat split; [apply MOptTake; exact Hm|exact Hk].
    + exists [], s, cs. repeat split; [apply MOptSkip|exact H].
  - destruct (IH1 _ _ _ _ H) as (m1 & s1 & cs1 & -> & Hm1 & Hk1).
    destruct (IH2 _ _ _ _ Hk1) as (m2 & s2 & cs2 & -> & Hm2 & Hk2).
    exists (m1 ++ m2), s2, cs2. rewrite <- app_assoc.
    repeat split; [constructor; assumption|exact Hk2].
  - destruct (IH _ _ _ _ H) as (m & s' & cs' & -> & Hm & Hk).
    eexists m, s', _. repeat split; [constructor; exact Hm|exact Hk].
Qed.

(** [re.search] finds nothing exactly when no substring of the subject
    is in the language of the pattern. *)
Lemma re_search_none_iff (r : regex) (s : pystr) :
  re_search r s = None <-> ~ occurs r s.
Proof.
  split.
  - induction s as [|x s IH]; intros H (pre & m & suf & Hs & Hm).
    + simpl in H. destruct (match_here r []) eqn:E; [discriminate|].
      destruct pre; [|discriminate]. simpl in Hs.
      apply (bt_complete r m Hm suf [] (fun _ c => Some c));
        [discriminate|]. rewrite <- Hs. exact E.
    + simpl in H. destruct (match_here r (x :: s)) eqn:E; [discriminate|].
      destruct pre as [|y pre].
      * simpl in Hs. apply (bt_complete r m Hm suf [] (fun _ c => Some c));
          [discriminate|]. rewrite <- Hs. exact E.
      * injection Hs as _ Hs. apply (IH H). exists pre, m, suf. auto.
  - induction s as [|x s IH]; intros Hno; simpl.
    + destruct (match_here r []) as [res|] eqn:E; [|reflexivity].
      exfalso. apply Hno. apply bt_sound in E as (m & s' & _ & Hs & Hm & _).
      exists [], m, s'. auto.
    + destruct (match_here r (x :: s)) as [res|] eqn:E.
      * exfalso. apply Hno. apply bt_sound in E as (m & s' & _ & Hs & Hm & _).
        exists [], m, s'. auto.
      * apply IH. intros (pre & m & suf & Hs & Hm). apply Hno.
        exists (x :: pre), m, suf. simpl. rewrite Hs. auto.
Qed.


(** ** The third component of the gateway's result *)









(** * Further properties of the code *)

(** ** The gateway: what a run does and never does *)

(** The durations of the sleeps recorded in a trace. *)
Fixpoint sleeps (evs : list event) : list Z :=
  match evs with
  | [] => []
  | EvSleep secs :: evs' => secs :: sleeps evs'
  | _ :: evs' => sleeps evs'
  end.

Lemma sleeps_app (a b : list event) :
  sleeps (a ++ b) = sleeps a ++ sleeps b.
Proof.
  induction a as [|ev a IH]; simpl; [reflexivity|].
  destruct ev; simpl; rewrite ?IH; reflexivity.
Qed.

Lemma waits_bound (mw : Z) (retry_sec : option Z) :
  waits mw retry_sec = true ->
  mw <> 0 /\ seconds retry_sec <> 0 /\ seconds retry_sec <= mw.
Proof.
  unfold waits, seconds, truthy_int.
  destruct retry_sec as [n|]; [|rewrite andb_false_r; discriminate].
  intros H. apply andb_true_iff in H as [H H3].
  apply andb_true_iff in H as [H1 H2].
  apply negb_true_iff, Z.eqb_neq in H1.
  apply negb_true_iff, Z.eqb_neq in H2.
  apply Z.leb_le in H3. auto.
Qed.

Lemma fallback_loop_sleeps (env : environment) (prompt : pystr) (mw : Z) :
  forall (models : list pystr) (lr : option Z) (w : world) r w',
    fallback_loop env models prompt mw lr w = (r, w') ->
    exists evs,
      w_trace w' = w_trace w ++ evs
      /\ Forall (fun d => d <> 0 /\ d <= mw) (sleeps evs)
      /\ (mw = 0 -> sleeps evs = [])
      /\ (List.length (sleeps evs) <= List.length (models_called evs))%nat.
Proof.
  induction models as [|model rest IH]; intros lr w r w' Hrun.
  - simpl in Hrun. injection Hrun as <- <-. exists [].
    rewrite app_nil_r. repeat split; auto.
  - rewrite fallback_loop_cons in Hrun. cbv zeta in Hrun.
    assert (Hstop : forall r0, (r0, after_call w model prompt) = (r, w') ->
      exists evs,
        w_trace w' = w_trace w ++ evs
        /\ Forall (fun d => d <> 0 /\ d <= mw) (sleeps evs)
        /\ (mw = 0 -> sleeps evs = [])
        /\ (List.length (sleeps evs) <= List.length (models_called evs))%nat).
    { intros r0 H. injection H as <- <-.
      exists [EvGenerateContent model prompt]. simpl.
      repeat split; auto. }
    destruct (generate_content env (w_calls w) model prompt)
      as [text|status msg|]; [eapply Hstop; eassumption|
                              |eapply Hstop; eassumption].
    destruct (is_rate_limit status msg); [|eapply Hstop; eassumption].
    destruct (_extract_retry_seconds msg) as [retry_sec|e];
      [|eapply Hstop; eassumption].
    destruct (waits mw retry_sec) eqn:Hw.
    + destruct (waits_bound _ _ Hw) as (Hmw & Hnz & Hle).
      destruct (IH _ _ _ _ Hrun) as (evs & Htr & Hall & Hzero & Hlen).
      exists (EvGenerateContent model prompt :: EvSleep (seconds retry_sec)
              :: evs).
      cbn [after_sleep after_call w_trace] in Htr.
      rewrite Htr, <- !app_assoc. simpl.
      repeat split; auto; try contradiction; try lia.
    + destruct (IH _ _ _ _ Hrun) as (evs & Htr & Hall & Hzero & Hlen).
      exists (EvGenerateContent model prompt :: evs).
      cbn [after_call w_trace] in Htr.
      rewrite Htr, <- !app_assoc. simpl. repeat split; auto; try lia.
Qed.

(** X2. The in-request wait is opt-in and bounded: every sleep of the
    gateway lasts a non-zero time of at most [max_wait_seconds], there
    is at most one sleep per backend call, and with the default
    [max_wait_seconds = 0] the gateway never sleeps. *)
Theorem generate_with_fallback_sleep_bounded
    (env : environment) (prompt : pystr) (max_wait_seconds : Z) (w : world) :
  let evs := new_events (generate_with_fallback env prompt max_wait_seconds) w in
  Forall (fun d => d <> 0 /\ d <= max_wait_seconds) (sleeps evs)
  /\ (max_wait_seconds = 0 -> sleeps evs = [])
  /\ (List.length (sleeps evs) <= List.length (models_called evs))%nat.
Proof.
  unfold new_events, final, generate_with_fallback.
  destruct (fallback_loop env MODEL_CANDIDATES prompt max_wait_seconds None w)
    as [r w'] eqn:Hrun.
  destruct (fallback_loop_sleeps _ _ _ _ _ _ _ _ Hrun)
    as (evs & Htr & H1 & H2 & H3).
  cbn [snd]. rewrite Htr, skipn_length_app. auto.
Qed.

(** X3. The gateway uses nothing but the backend and the sleep timer:
    whatever it returns or raises, the store and the clock are as
    before, every event it adds is a backend call or a sleep, and the
    call counter grows by the number of backend calls recorded. *)
Theorem generate_with_fallback_frame
    (env : environment) (prompt : pystr) (max_wait_seconds : Z) (w : world) :
  let w' := final (generate_with_fallback env prompt max_wait_seconds) w in
  let evs := new_events (generate_with_fallback env prompt max_wait_seconds) w in
  w_db w' = w_db w
  /\ w_ticks w' = w_ticks w
  /\ w_trace w' = w_trace w ++ evs
  /\ forallb is_gateway_event evs = true.
Proof.
  unfold new_events, final.
  destruct (generate_with_fallback env prompt max_wait_seconds w)
    as [r w'] eqn:Hrun.
  destruct (gateway_frame _ _ _ _ _ _ Hrun) as (Hd & Ht & evs & Htr & Hall).
  cbn [snd]. rewrite Htr, skipn_length_app. auto.
Qed.

(** X4. What the gateway returns is well formed: text is never empty
    and comes with the name of one of [MODEL_CANDIDATES] and no delay;
    a result without text has no model name. *)
Theorem generate_with_fallback_shape
    (env : environment) (prompt : pystr) (max_wait_seconds : Z) (w : world)
    (text model : option pystr) (retry : option Z) :
  outcome_of (generate_with_fallback env prompt max_wait_seconds) w
    = Returned (text, model, retry) ->
  match text with
  | Some t =>
    t <> [] /\ retry = None
    /\ exists m, model = Some m /\ In m MODEL_CANDIDATES
  | None => model = None
  end.
Proof.
  unfold outcome_of, generate_with_fallback.
  destruct (fallback_loop env MODEL_CANDIDATES prompt max_wait_seconds None w)
    as [r w'] eqn:Hrun.
  cbn [fst]. intros ->. eapply fallback_loop_shape. exact Hrun.
Qed.

Lemma generate_with_fallback_shape_witness :
  match Some (py "頑張ったね！次は何をする？") with
  | Some t =>
    t <> [] /\ @None Z = None
    /\ exists m, Some first_candidate = Some m /\ In m MODEL_CANDIDATES
  | None => Some first_candidate = None
  end.
Proof.
  apply (generate_with_fallback_shape env_always_ok (py "prompt") 0
           fresh_world (Some (py "頑張ったね！次は何をする？"))
           (Some first_candidate) None).
  vm_compute. reflexivity.
Defined.





(** X6. An error of the first candidate that is not a rate limit ends
    the gateway after that single call, with the null triple: the
    remaining candidates are not tried. *)
Theorem generate_with_fallback_aborts_on_other_error
    (env : environment) (prompt : pystr) (max_wait_seconds : Z) (w : world) :
  (generate_content env (w_calls w) first_candidate prompt = RaisesException
   \/ exists status msg,
       generate_content env (w_calls w) first_candidate prompt
         = RaisesClientError status msg
       /\ is_rate_limit status msg = false) ->
  generate_with_fallback env prompt max_wait_seconds w
  = (Returned (None, None, None),
     mk_world (w_db w) (w_ticks w) (S (w_calls w))
       (w_trace w ++ [EvGenerateContent first_candidate prompt])).
Proof.
  intros H. unfold generate_with_fallback, MODEL_CANDIDATES.
  fold first_candidate. rewrite fallback_loop_cons. cbv zeta.
  destruct H as [-> | (status & msg & -> & ->)]; reflexivity.
Qed.

Definition env_unavailable : environment :=
  mk_env fixed_clock (fun _ _ _ => RaisesException).

Lemma generate_with_fallback_aborts_on_other_error_witness :
  generate_with_fallback env_unavailable (py "prompt") 0 fresh_world
  = (Returned (None, None, None),
     mk_world (w_db fresh_world) (w_ticks fresh_world)
       (S (w_calls fresh_world))
       (w_trace fresh_world ++ [EvGenerateContent first_candidate (py "prompt")])).
Proof.
  apply (generate_with_fallback_aborts_on_other_error env_unavailable
           (py "prompt") 0 fresh_world).
  left. reflexivity.
Defined.

(** ** The handler: replies, store invariants, history *)

(** The replies recorded in a trace. *)
Fixpoint replies (evs : list event) : list (pystr * pystr) :=
  match evs with
  | [] => []
  | EvReplyText token text :: evs' => (token, text) :: replies evs'
  | _ :: evs' => replies evs'
  end.

Lemma replies_app (a b : list event) :
  replies (a ++ b) = replies a ++ replies b.
Proof.
  induction a as [|ev a IH]; simpl; [reflexivity|].
  destruct ev; simpl; rewrite ?IH; reflexivity.
Qed.

Lemma gateway_events_no_reply (evs : list event) :
  forallb is_gateway_event evs = true -> replies evs = [].
Proof.
  induction evs as [|ev evs IH]; simpl; [reflexivity|].
  intros H. apply andb_true_iff in H as [Hev Hrest].
  destruct ev; simpl in *; try discriminate; auto.
Qed.

Definition no_sender_reply : pystr :=
  py "ユーザーIDが取得できなかったよ。1:1トークで試してね。".

Lemma handle_message_no_sender (env : environment) (event : message_event)
    (w : world) :
  truthy_str (source_user_id event) = false ->
  handle_message env event w
  = (Returned tt,
     mk_world (w_db w) (w_ticks w) (w_calls w)
       (w_trace w ++ [EvReplyText (reply_token event) no_sender_reply])).
Proof.
  unfold handle_message, no_sender_reply. intros H.
  destruct (source_user_id event) as [[|c u]|]; cbn [truthy_str] in H;
    try discriminate; reflexivity.
Qed.

Lemma truthy_sender (event : message_event) :
  truthy_str (source_user_id event) = true ->
  exists uid, source_user_id event = Some uid /\ uid <> [].
Proof.
  destruct (source_user_id event) as [[|c u]|]; simpl; try discriminate.
  intros _. exists (c :: u). split; [reflexivity|discriminate].
Qed.

(** X7. One reply per event: whenever the handler returns, it has sent
    exactly one reply, on the event's reply token and as its last
    effect; when it raises (the gateway's exception passing through),
    it has sent none.  An event without a usable sender id gets the
    fixed reply and nothing else happens: no store access and no
    backend call. *)
Theorem handle_message_replies_once
    (env : environment) (event : message_event) (w : world) :
  let evs := new_events (handle_message env event) w in
  match outcome_of (handle_message env event) w with
  | Returned _ =>
    exists before text,
      evs = before ++ [EvReplyText (reply_token event) text]
      /\ replies before = []
  | Raised _ => replies evs = []
  end
  /\ (truthy_str (source_user_id event) = false ->
      evs = [EvReplyText (reply_token event) no_sender_reply]
      /\ w_db (final (handle_message env event) w) = w_db w
      /\ w_calls (final (handle_message env event) w) = w_calls w).
Proof.
  cbv zeta. unfold new_events, outcome_of, final.
  destruct (truthy_str (source_user_id event)) eqn:Hs.
  - split; [|discriminate].
    destruct (truthy_sender event Hs) as (uid & Hsrc & Hne).
    destruct (is_profile_query (message_of event)) eqn:Hq.
    + rewrite (handle_message_profile env event uid w Hsrc Hne Hq).
      destruct (generate_with_fallback env (profile_prompt env uid w) 0
                  (before_gateway env uid 30 w)) as [r w2] eqn:Hgw.
      destruct (gateway_frame _ _ _ _ _ _ Hgw) as (_ & _ & evs & Htr & Hall).
      cbn [before_gateway w_trace] in Htr.
      pose proof (gateway_events_no_reply evs Hall) as Hnr.
      destruct r as [[[text used_model] retry_sec]|e]; cbn [fst snd w_trace];
        rewrite Htr, <- !app_assoc, skipn_length_app.
      * eexists (_ :: _ :: evs), _. split; [reflexivity|]. exact Hnr.
      * exact Hnr.
    + rewrite (handle_message_report env event uid w Hsrc Hne Hq).
      destruct (generate_with_fallback env (report_prompt env event uid w) 0
                  (before_gateway env uid 10 w)) as [r w2] eqn:Hgw.
      destruct (gateway_frame _ _ _ _ _ _ Hgw) as (_ & _ & evs & Htr & Hall).
      cbn [before_gateway w_trace] in Htr.
      pose proof (gateway_events_no_reply evs Hall) as Hnr.
      destruct r as [[[text used_model] retry_sec]|e]; cbn [fst snd w_trace];
        rewrite Htr, <- !app_assoc, skipn_length_app.
      * eexists (_ :: _ :: evs ++ [_]), _. split.
        -- cbn [app]. rewrite <- app_assoc. reflexivity.
        -- cbn [replies]. rewrite replies_app, Hnr. reflexivity.
      * exact Hnr.
  - rewrite (handle_message_no_sender env event w Hs). cbn [fst snd w_trace].
    rewrite skipn_length_app. split.
    + exists [], no_sender_reply. split; reflexivity.
    + intros _. repeat split.
Qed.

(** The store is well formed: [users] satisfies its primary key and
    the rowids of [daily_logs] grow with insertion. *)
Definition store_wf (db : database) : Prop :=
  users_pk db /\ ids_increasing db.

Lemma store_wf_init : store_wf (init_db None).
Proof. split; constructor. Qed.

Lemma store_wf_insert_user (uid ts : pystr) (db : database) :
  store_wf db -> store_wf (sql_insert_or_ignore_user uid ts db).
Proof.
  intros [Hpk Hinc]. split;
    [apply users_pk_insert|apply ids_increasing_insert_user]; assumption.
Qed.

Lemma store_wf_with_log (db : database) uid date text reply model ts :
  store_wf db -> store_wf (with_log db uid date text reply model ts).
Proof.
  intros [Hpk Hinc]. split; [exact Hpk|].
  apply ids_increasing_with_log. exact Hinc.
Qed.

(** X8. The handler keeps the store well formed and only ever appends:
    for every event and every behaviour of the backend, also when the
    gateway raises, the primary key of [users] and the growth of the
    rowids are preserved, the rows of both tables that were there are
    still there, unchanged and in place, and at most one row is added
    to each table. *)
Theorem handle_message_keeps_store
    (env : environment) (event : message_event) (w : world) :
  store_wf (w_db w) ->
  let w' := final (handle_message env event) w in
  store_wf (w_db w')
  /\ (exists us, users (w_db w') = users (w_db w) ++ us
                 /\ (List.length us <= 1)%nat)
  /\ (exists ls, daily_logs (w_db w') = daily_logs (w_db w) ++ ls
                 /\ (List.length ls <= 1)%nat).
Proof.
  intros Hwf w'.
  destruct (truthy_str (source_user_id event)) eqn:Hs.
  - destruct (truthy_sender event Hs) as (uid & Hsrc & Hne).
    set (db1 := sql_insert_or_ignore_user uid
                  (isoformat (clock env (w_ticks w))) (w_db w)).
    assert (Hwf1 : store_wf db1) by (apply store_wf_insert_user; exact Hwf).
    assert (Hus1 : exists us, users db1 = users (w_db w) ++ us
                              /\ (List.length us <= 1)%nat).
    { unfold db1, sql_insert_or_ignore_user.
      destruct (has_user uid (w_db w)).
      - exists []. rewrite app_nil_r. split; [reflexivity|simpl; lia].
      - eexists [_]. split; [reflexivity|simpl; lia]. }
    assert (Hl1 : daily_logs db1 = daily_logs (w_db w))
      by apply daily_logs_after_insert_user.
    assert (Hsame : forall w2, w_db w' = w_db w2 -> w_db w2 = db1 ->
      store_wf (w_db w')
      /\ (exists us, users (w_db w') = users (w_db w) ++ us
                     /\ (List.length us <= 1)%nat)
      /\ (exists ls, daily_logs (w_db w') = daily_logs (w_db w) ++ ls
                     /\ (List.length ls <= 1)%nat)).
    { intros w2 H1 H2. rewrite H1, H2. split; [exact Hwf1|].
      split; [exact Hus1|]. exists []. rewrite app_nil_r, Hl1.
      split; [reflexivity|simpl; lia]. }
    destruct (is_profile_query (message_of event)) eqn:Hq.
    + pose proof (handle_message_profile env event uid w Hsrc Hne Hq) as Hrun.
      destruct (generate_with_fallback env (profile_prompt env uid w) 0
                  (before_gateway env uid 30 w)) as [r w2] eqn:Hgw.
      destruct (gateway_frame _ _ _ _ _ _ Hgw) as (Hdb & _).
      apply (Hsame w2); [|exact Hdb].
      unfold w', final. rewrite Hrun.
      destruct r as [[[text used_model] retry_sec]|e]; reflexivity.
    + pose proof (handle_message_report env event uid w Hsrc Hne Hq) as Hrun.
      destruct (generate_with_fallback env (report_prompt env event uid w) 0
                  (before_gateway env uid 10 w)) as [r w2] eqn:Hgw.
      destruct (gateway_frame _ _ _ _ _ _ Hgw) as (Hdb & _).
      cbn [before_gateway w_db] in Hdb. fold db1 in Hdb.
      destruct r as [[[text used_model] retry_sec]|e]; cbv zeta in Hrun.
      * unfold w', final. rewrite Hrun. cbn [snd w_db]. rewrite Hdb.
        split; [apply store_wf_with_log; exact Hwf1|].
        split; [exact Hus1|]. cbn [with_log daily_logs]. rewrite Hl1.
        eexists [_]. split; [reflexivity|simpl; lia].
      * apply (Hsame w2); [|exact Hdb].
        unfold w', final. rewrite Hrun. reflexivity.
  - unfold w', final. rewrite (handle_message_no_sender env event w Hs).
    cbn [snd w_db]. split; [exact Hwf|].
    split; exists []; rewrite app_nil_r; (split; [reflexivity|simpl; lia]).
Qed.

Lemma handle_message_keeps_store_witness :
  let w' := final (handle_message env_always_ok report_event) fresh_world in
  store_wf (w_db w')
  /\ (exists us, users (w_db w') = users (w_db fresh_world) ++ us
                 /\ (List.length us <= 1)%nat)
  /\ (exists ls, daily_logs (w_db w') = daily_logs (w_db fresh_world) ++ ls
                 /\ (List.length ls <= 1)%nat).
Proof.
  apply (handle_message_keeps_store env_always_ok report_event fresh_world).
  exact store_wf_init.
Defined.

Lemma insert_desc_In (x r : log_row) (rows : list log_row) :
  In x (insert_desc r rows) <-> x = r \/ In x rows.
Proof.
  induction rows as [|r' rows IH]; simpl.
  - intuition congruence.
  - destruct (log_id r' <=? log_id r); simpl; rewrite ?IH;
      intuition congruence.
Qed.

Lemma order_by_id_desc_In (x : log_row) (rows : list log_row) :
  In x (order_by_id_desc rows) <-> In x rows.
Proof.
  induction rows as [|r rows IH]; simpl; [tauto|].
  rewrite insert_desc_In, IH. intuition congruence.
Qed.

Lemma sql_limit_In {A : Type} (n : Z) (x : A) (rows : list A) :
  In x (sql_limit n rows) -> In x rows.
Proof.
  unfold sql_limit. destruct (n <? 0); [auto|apply In_firstn].
Qed.

Lemma sql_limit_length {A : Type} (n : Z) (rows : list A) :
  0 <= n -> Z.of_nat (List.length (sql_limit n rows)) <= n.
Proof.
  intros Hn. unfold sql_limit.
  destruct (n <? 0) eqn:E; [apply Z.ltb_lt in E; lia|].
  pose proof (firstn_le_length (Z.to_nat n) rows). lia.
Qed.

(** The rows selected for a user are stored rows of that user, at most
    [limit] of them; no invariant of the store is needed for this. *)
Lemma selected_logs_own_rows (uid : pystr) (limit : Z) (db : database) :
  Forall (fun r => In r (daily_logs db) /\ log_user_id r = uid)
    (selected_logs uid limit db)
  /\ (0 <= limit ->
      Z.of_nat (List.length (selected_logs uid limit db)) <= limit).
Proof.
  split; [|apply sql_limit_length].
  rewrite Forall_forall. intros r Hr. unfold selected_logs in Hr.
  apply sql_limit_In in Hr. apply -> order_by_id_desc_In in Hr.
  unfold where_user_id in Hr. apply filter_In in Hr as [Hin Heq].
  apply pystr_eqb_eq in Heq. auto.
Qed.

(** The prompts of the backend calls recorded in a trace. *)
Fixpoint prompts_sent (evs : list event) : list pystr :=
  match evs with
  | [] => []
  | EvGenerateContent _ contents :: evs' => contents :: prompts_sent evs'
  | _ :: evs' => prompts_sent evs'
  end.

Lemma prompts_sent_app (a b : list event) :
  prompts_sent (a ++ b) = prompts_sent a ++ prompts_sent b.
Proof.
  induction a as [|ev a IH]; simpl; [reflexivity|].
  destruct ev; simpl; rewrite ?IH; reflexivity.
Qed.

Lemma fallback_loop_prompts (env : environment) (prompt : pystr) (mw : Z) :
  forall (models : list pystr) (lr : option Z) (w : world) r w',
    fallback_loop env models prompt mw lr w = (r, w') ->
    exists evs,
      w_trace w' = w_trace w ++ evs
      /\ Forall (fun p => p = prompt) (prompts_sent evs).
Proof.
  induction models as [|model rest IH]; intros lr w r w' Hrun.
  - simpl in Hrun. injection Hrun as <- <-. exists [].
    rewrite app_nil_r. split; [reflexivity|constructor].
  - rewrite fallback_loop_cons in Hrun. cbv zeta in Hrun.
    assert (Hstop : forall r0, (r0, after_call w model prompt) = (r, w') ->
      exists evs, w_trace w' = w_trace w ++ evs
                  /\ Forall (fun p => p = prompt) (prompts_sent evs)).
    { intros r0 H. injection H as <- <-.
      exists [EvGenerateContent model prompt]. split; [reflexivity|].
      repeat constructor. }
    assert (Hnext : forall lr2 w2 evs0,
      fallback_loop env rest prompt mw lr2 w2 = (r, w') ->
      w_trace w2 = w_trace w ++ EvGenerateContent model prompt :: evs0 ->
      prompts_sent evs0 = [] ->
      exists evs, w_trace w' = w_trace w ++ evs
                  /\ Forall (fun p => p = prompt) (prompts_sent evs)).
    { intros lr2 w2 evs0 H Htr Hp.
      destruct (IH _ _ _ _ H) as (evs & Hevs & Hall).
      exists (EvGenerateContent model prompt :: evs0 ++ evs).
      rewrite Hevs, Htr, <- app_assoc. split; [reflexivity|].
      cbn [prompts_sent]. rewrite prompts_sent_app, Hp.
      constructor; [reflexivity|exact Hall]. }
    destruct (generate_content env (w_calls w) model prompt)
      as [text|status msg|]; [eapply Hstop; eassumption|
                              |eapply Hstop; eassumption].
    destruct (is_rate_limit status msg); [|eapply Hstop; eassumption].
    destruct (_extract_retry_seconds msg) as [retry_sec|e];
      [|eapply Hstop; eassumption].
    destruct (waits mw retry_sec).
    + apply (Hnext _ _ [EvSleep (seconds retry_sec)] Hrun); auto.
      cbn [after_sleep after_call w_trace]. rewrite <- app_assoc. reflexivity.
    + apply (Hnext _ _ [] Hrun); auto.
Qed.

(** The store once [upsert_user] has run. *)
Definition db_after_upsert (env : environment) (uid : pystr) (w : world)
  : database :=
  sql_insert_or_ignore_user uid (isoformat (clock env (w_ticks w))) (w_db w).

Lemma profile_prompt_eq (env : environment) (uid : pystr) (w : world) :
  profile_prompt env uid w
  = build_profile_prompt
      (map project (selected_logs uid 30 (db_after_upsert env uid w))).
Proof. reflexivity. Qed.

Lemma report_prompt_eq (env : environment) (event : message_event)
    (uid : pystr) (w : world) :
  report_prompt env event uid w
  = build_daily_prompt (message_of event)
      (map project (selected_logs uid 10 (db_after_upsert env uid w))).
Proof. reflexivity. Qed.

Lemma db_after_upsert_own_rows (env : environment) (uid : pystr) (w : world)
    (limit : Z) :
  0 <= limit ->
  Forall (fun r => In r (daily_logs (w_db w)) /\ log_user_id r = uid)
    (selected_logs uid limit (db_after_upsert env uid w))
  /\ (List.length (selected_logs uid limit (db_after_upsert env uid w))
      <= Z.to_nat limit)%nat.
Proof.
  intros Hlim.
  destruct (selected_logs_own_rows uid limit (db_after_upsert env uid w))
    as [Hall Hlen].
  unfold db_after_upsert in Hall at 1.
  destruct (daily_logs_after_insert_user uid
              (isoformat (clock env (w_ticks w))) (w_db w)) as [Hl _].
  rewrite Hl in Hall. split; [exact Hall|]. specialize (Hlen Hlim). lia.
Qed.

(** The prompts of the backend calls the handler makes, in each flow. *)
Lemma handle_message_prompts_profile (env : environment)
    (event : message_event) (uid : pystr) (w : world) :
  source_user_id event = Some uid -> uid <> [] ->
  is_profile_query (message_of event) = true ->
  Forall (fun p => p = profile_prompt env uid w)
    (prompts_sent (new_events (handle_message env event) w)).
Proof.
  intros Hsrc Hne Hq. unfold new_events, final.
  rewrite (handle_message_profile env event uid w Hsrc Hne Hq).
  destruct (generate_with_fallback env (profile_prompt env uid w) 0
              (before_gateway env uid 30 w)) as [r w2] eqn:Hgw.
  destruct (fallback_loop_prompts _ _ _ _ _ _ _ _ Hgw) as (evs & Htr & Hp).
  cbn [before_gateway w_trace] in Htr.
  destruct r as [[[text used_model] retry_sec]|e]; cbn [snd w_trace];
    rewrite Htr, <- !app_assoc, skipn_length_app;
    cbn [app prompts_sent]; rewrite ?prompts_sent_app; cbn [prompts_sent];
    rewrite ?app_nil_r; exact Hp.
Qed.

Lemma handle_message_prompts_report (env : environment)
    (event : message_event) (uid : pystr) (w : world) :
  source_user_id event = Some uid -> uid <> [] ->
  is_profile_query (message_of event) = false ->
  Forall (fun p => p = report_prompt env event uid w)
    (prompts_sent (new_events (handle_message env event) w)).
Proof.
  intros Hsrc Hne Hq. unfold new_events, final.
  rewrite (handle_message_report env event uid w Hsrc Hne Hq).
  destruct (generate_with_fallback env (report_prompt env event uid w) 0
              (before_gateway env uid 10 w)) as [r w2] eqn:Hgw.
  destruct (fallback_loop_prompts _ _ _ _ _ _ _ _ Hgw) as (evs & Htr & Hp).
  cbn [before_gateway w_trace] in Htr.
  destruct r as [[[text used_model] retry_sec]|e]; cbn [snd w_trace];
    rewrite Htr, <- !app_assoc, skipn_length_app;
    cbn [app prompts_sent]; rewrite ?prompts_sent_app; cbn [prompts_sent];
    rewrite ?app_nil_r; exact Hp.
Qed.

(** X9. What the handler sends to the backend is built from the
    sender's own history only: every prompt of a backend call is the
    profile prompt or, for a report, the daily prompt with the stripped
    message, over rows that are stored rows of that same user, at most
    30 of them in the profile flow and 10 in the report flow. *)
Theorem handle_message_prompt_from_own_history
    (env : environment) (event : message_event) (uid : pystr) (w : world) :
  source_user_id event = Some uid -> uid <> [] ->
  exists rows,
    Forall (fun r => In r (daily_logs (w_db w)) /\ log_user_id r = uid) rows
    /\ (List.length rows
        <= if is_profile_query (message_of event) then 30 else 10)%nat
    /\ Forall
         (fun p =>
            p = if is_profile_query (message_of event)
                then build_profile_prompt (map project rows)
                else build_daily_prompt (message_of event) (map project rows))
         (prompts_sent (new_events (handle_message env event) w)).
Proof.
  intros Hsrc Hne.
  destruct (is_profile_query (message_of event)) eqn:Hq.
  - exists (selected_logs uid 30 (db_after_upsert env uid w)).
    destruct (db_after_upsert_own_rows env uid w 30 ltac:(lia)) as [Hall Hlen].
    split; [exact Hall|]. split; [exact Hlen|].
    rewrite <- profile_prompt_eq.
    apply handle_message_prompts_profile; assumption.
  - exists (selected_logs uid 10 (db_after_upsert env uid w)).
    destruct (db_after_upsert_own_rows env uid w 10 ltac:(lia)) as [Hall Hlen].
    split; [exact Hall|]. split; [exact Hlen|].
    rewrite <- report_prompt_eq.
    apply handle_message_prompts_report; assumption.
Qed.

Lemma handle_message_prompt_from_own_history_witness :
  exists rows,
    Forall (fun r => In r (daily_logs (w_db fresh_world))
                     /\ log_user_id r = py "U1") rows
    /\ (List.length rows
        <= if is_profile_query (message_of report_event) then 30 else 10)%nat
    /\ Forall
         (fun p =>
            p = if is_profile_query (message_of report_event)
                then build_profile_prompt (map project rows)
                else build_daily_prompt (message_of report_event)
                       (map project rows))
         (prompts_sent
            (new_events (handle_message env_always_ok report_event)
               fresh_world)).
Proof.
  apply (handle_message_prompt_from_own_history env_always_ok report_event
           (py "U1") fresh_world).
  - reflexivity.
  - vm_compute. discriminate.
Defined.

(** ** Intent classification *)

Lemma startswith_app (p s : pystr) : startswith (p ++ s) p = true.
Proof. unfold startswith. rewrite strip_prefix_app. reflexivity. Qed.

(** [needle in hay] holds exactly when [hay] splits around [needle]. *)
Lemma contains_iff (needle hay : pystr) :
  contains needle hay = true <-> exists a b, hay = a ++ needle ++ b.
Proof.
  split.
  - induction hay as [|c hay IH]; simpl; unfold startswith.
    + destruct (strip_prefix needle []) as [s'|] eqn:E; [|discriminate].
      intros _. apply strip_prefix_some in E. exists [], s'. exact E.
    + destruct (strip_prefix needle (c :: hay)) as [s'|] eqn:E.
      * intros _. apply strip_prefix_some in E. exists [], s'. exact E.
      * intros H. destruct (IH H) as (a & b & ->). exists (c :: a), b.
        reflexivity.
  - intros (a & b & ->). induction a as [|c a IH].
    + simpl. destruct (needle ++ b) eqn:E; simpl; rewrite <- E;
        rewrite startswith_app; reflexivity.
    + simpl. destruct (startswith (c :: a ++ needle ++ b) needle);
        [reflexivity|exact IH].
Qed.

Lemma lstrip_suffix (s : pystr) : exists a, s = a ++ lstrip s.
Proof.
  induction s as [|c s (a & IH)]; simpl; [exists []; reflexivity|].
  destruct (isspace c).
  - exists (c :: a). simpl. f_equal. exact IH.
  - exists []. reflexivity.
Qed.

Lemma lstrip_stops (a : pystr) (c : N) (t : pystr) :
  isspace c = false -> exists a', lstrip (a ++ c :: t) = a' ++ c :: t.
Proof.
  intros Hc. induction a as [|x a (a' & IH)]; simpl.
  - rewrite Hc. exists []. reflexivity.
  - destruct (isspace x); [exists a'; exact IH|].
    exists (x :: a). reflexivity.
Qed.

(** [strip] only removes characters at the two ends. *)
Lemma strip_inside (s : pystr) : exists a b, s = a ++ strip s ++ b.
Proof.
  unfold strip, rstrip.
  destruct (lstrip_suffix s) as (a & Ha).
  destruct (lstrip_suffix (rev (lstrip s))) as (b & Hb).
  exists a, (rev b). rewrite <- rev_app_distr, <- Hb, rev_involutive.
  exact Ha.
Qed.

(** [strip] keeps every occurrence of a text that neither starts nor
    ends with white space. *)
Lemma strip_keeps (first last : N) (mid pre suf : pystr) :
  isspace first = false -> isspace last = false ->
  exists a b,
    strip (pre ++ (first :: mid ++ [last]) ++ suf)
    = a ++ (first :: mid ++ [last]) ++ b.
Proof.
  intros Hf Hl. unfold strip, rstrip.
  destruct (lstrip_stops pre first ((mid ++ [last]) ++ suf) Hf) as (a & Ha).
  replace (pre ++ (first :: mid ++ [last]) ++ suf)
    with (pre ++ first :: (mid ++ [last]) ++ suf) by reflexivity.
  rewrite Ha.
  replace (rev (a ++ first :: (mid ++ [last]) ++ suf))
    with (rev suf ++ last :: rev (a ++ first :: mid)).
  2:{ rewrite !rev_app_distr. simpl. rewrite !rev_app_distr. simpl.
      rewrite <- !app_assoc. reflexivity. }
  destruct (lstrip_stops (rev suf) last (rev (a ++ first :: mid)) Hl)
    as (b & Hb).
  rewrite Hb. exists a, (rev b).
  rewrite rev_app_distr. simpl. rewrite rev_involutive.
  rewrite <- !app_assoc. reflexivity.
Qed.

Definition edges_not_space (p : pystr) : bool :=
  match p, rev p with
  | first :: _ :: _, last :: _ => negb (isspace first) && negb (isspace last)
  | _, _ => false
  end.

Lemma edges_not_space_shape (p : pystr) :
  edges_not_space p = true ->
  exists first mid last,
    p = first :: mid ++ [last]
    /\ isspace first = false /\ isspace last = false.
Proof.
  unfold edges_not_space. destruct p as [|first [|x t]]; try discriminate.
  destruct (rev (first :: x :: t)) as [|last r] eqn:E; [discriminate|].
  intros H. apply andb_true_iff in H as [H1 H2].
  apply negb_true_iff in H1, H2.
  assert (Hp : first :: x :: t = rev r ++ [last]).
  { rewrite <- (rev_involutive (first :: x :: t)), E. reflexivity. }
  destruct (rev r) as [|y r'] eqn:Er.
  - simpl in Hp. discriminate.
  - simpl in Hp. injection Hp as -> Hp. exists y, r', last.
    rewrite Hp. auto.
Qed.

Lemma contains_strip (p s : pystr) :
  edges_not_space p = true ->
  contains p (strip s) = contains p s.
Proof.
  intros Hp. destruct (edges_not_space_shape p Hp)
    as (first & mid & last & -> & Hf & Hl).
  destruct (contains (first :: mid ++ [last]) s) eqn:E.
  - apply contains_iff in E as (pre & suf & ->).
    destruct (strip_keeps first last mid pre suf Hf Hl) as (a & b & ->).
    apply contains_iff. exists a, b. reflexivity.
  - destruct (contains (first :: mid ++ [last]) (strip s)) eqn:E2;
      [|reflexivity].
    apply contains_iff in E2 as (a & b & Hs).
    destruct (strip_inside s) as (a0 & b0 & Hs0).
    assert (contains (first :: mid ++ [last]) s = true).
    { apply contains_iff. exists (a0 ++ a), (b ++ b0).
      rewrite Hs0, Hs, <- !app_assoc. reflexivity. }
    congruence.
Qed.

(** X10. Classification is by substring and blind to surrounding white
    space: a message is routed to the profile flow exactly when its
    text, before stripping, contains one of the four phrases; so any
    text around a phrase, and any leading or trailing white space,
    leaves the routing as it is, and a missing or empty text is a
    report. *)
Theorem profile_routing_by_substring (event : message_event) :
  is_profile_query (message_of event)
  = match message_text event with
    | Some text => existsb (fun p => contains p text) PROFILE_QUERY_PHRASES
    | None => false
    end
  /\ (forall p pre suf,
         In p PROFILE_QUERY_PHRASES ->
         message_text event = Some (pre ++ p ++ suf) ->
         is_profile_query (message_of event) = true).
Proof.
  assert (Hedges : forallb edges_not_space PROFILE_QUERY_PHRASES = true)
    by (vm_compute; reflexivity).
  assert (Hstrip : forall s,
            is_profile_query (strip s)
            = existsb (fun p => contains p s) PROFILE_QUERY_PHRASES).
  { intros s. unfold is_profile_query.
    rewrite forallb_forall in Hedges.
    induction PROFILE_QUERY_PHRASES as [|p l IH]; [reflexivity|].
    simpl. rewrite contains_strip by (apply Hedges; left; reflexivity).
    rewrite IH; [reflexivity|]. intros x Hx. apply Hedges. right. exact Hx. }
  assert (Hfirst : is_profile_query (message_of event)
    = match message_text event with
      | Some text => existsb (fun p => contains p text) PROFILE_QUERY_PHRASES
      | None => false
      end).
  { unfold message_of. destruct (message_text event) as [text|].
    - apply Hstrip.
    - vm_compute. reflexivity. }
  split; [exact Hfirst|].
  intros p pre suf Hin Htext. rewrite Hfirst, Htext.
  apply existsb_exists. exists p. split; [exact Hin|].
  apply contains_iff. exists pre, suf. reflexivity.
Qed.

(** ** The parser: what it can return and raise *)

Lemma consumed_app (m s : pystr) : consumed (m ++ s) s = m.
Proof.
  unfold consumed. rewrite length_app, Nat.add_sub.
  rewrite firstn_app, Nat.sub_diag, firstn_all, firstn_O. apply app_nil_r.
Qed.

Lemma bt_lit (l s : pystr) (cs : captures) k (res : captures) :
  bt (Lit l) s cs k = Some res ->
  exists s', s = l ++ s' /\ k s' cs = Some res.
Proof.
  cbn [bt]. destruct (strip_prefix l s) as [s'|] eqn:E; [|discriminate].
  intros H. exists s'. split; [apply strip_prefix_some; exact E|exact H].
Qed.

Lemma bt_star (c : charclass) (s : pystr) (cs : captures) k (res : captures) :
  bt (Star c) s cs k = Some res ->
  exists m s', s = m ++ s' /\ k s' cs = Some res.
Proof.
  cbn [bt]. intros H. apply star_class_sound in H as (m & s' & Hs & _ & Hk).
  exists m, s'. auto.
Qed.

Lemma bt_group (i : nat) (r : regex) (s : pystr) (cs : captures) k
    (res : captures) :
  bt (Group i r) s cs k = Some res ->
  exists m s' cs',
    s = m ++ s' /\ matches r m /\ k s' ((i, m) :: cs') = Some res.
Proof.
  cbn [bt]. intros H.
  apply bt_sound in H as (m & s' & cs' & -> & Hm & Hk).
  rewrite consumed_app in Hk. exists m, s', cs'. auto.
Qed.

Lemma re_search_some (r : regex) (s : pystr) (res : captures) :
  re_search r s = Some res -> exists t, match_here r t = Some res.
Proof.
  induction s as [|x s IH]; simpl.
  - destruct (match_here r []) eqn:E; [|discriminate].
    intros H. injection H as <-. exists []. exact E.
  - destruct (match_here r (x :: s)) eqn:E.
    + intros H. injection H as <-. exists (x :: s). exact E.
    + exact IH.
Qed.

Lemma re_search_some_occurs (r : regex) (s : pystr) (res : captures) :
  re_search r s = Some res -> occurs r s.
Proof.
  induction s as [|x s IH]; simpl.
  - destruct (match_here r []) eqn:E; [|discriminate]. intros _.
    apply bt_sound in E as (m & s' & _ & Hs & Hm & _).
    exists [], m, s'. auto.
  - destruct (match_here r (x :: s)) eqn:E.
    + intros _. apply bt_sound in E as (m & s' & _ & Hs & Hm & _).
      exists [], m, s'. auto.
    + intros H. destruct (IH H) as (pre & m & suf & -> & Hm).
      exists (x :: pre), m, suf. auto.
Qed.

(** The text of group 1 after a match of the first pattern. *)
Definition decimal_literal : regex :=
  Seq (Plus ascii_digit)
    (Opt (Group 2 (Seq (Lit (py ".")) (Plus ascii_digit)))).

Lemma retry_in_group1 (s : pystr) (res : captures) :
  re_search pat_retry_in s = Some res ->
  exists g, group 1 res = Some g /\ matches decimal_literal g.
Proof.
  intros H. apply re_search_some in H as (t & H).
  unfold match_here, pat_retry_in in H. cbn [bt] in H.
  change (bt (Lit (py "retry in ")) t []
            (fun s1 c1 =>
               bt (Group 1 decimal_literal) s1 c1
                 (fun s2 c2 => bt (Lit (py "s")) s2 c2 (fun _ c => Some c)))
          = Some res) in H.
  apply bt_lit in H as (s1 & _ & H).
  apply bt_group in H as (g & s2 & cs' & _ & Hg & H).
  apply bt_lit in H as (s3 & _ & H). injection H as <-.
  exists g. split; [reflexivity|exact Hg].
Qed.

Lemma retryDelay_group1 (s : pystr) (res : captures) :
  re_search pat_retryDelay s = Some res ->
  exists g, group 1 res = Some g /\ matches (Plus ascii_digit) g.
Proof.
  intros H. apply re_search_some in H as (t & H).
  unfold match_here, pat_retryDelay in H.
  change (bt (Lit (py "retryDelay")) t []
            (fun s1 c1 =>
               bt (Star non_digit) s1 c1
                 (fun s2 c2 =>
                    bt (Group 1 (Plus ascii_digit)) s2 c2
                      (fun s3 c3 =>
                         bt (Lit (py "s")) s3 c3 (fun _ c => Some c))))
          = Some res) in H.
  apply bt_lit in H as (s1 & _ & H).
  apply bt_star in H as (m & s2 & _ & H).
  apply bt_group in H as (g & s3 & cs' & _ & Hg & H).
  apply bt_lit in H as (s4 & _ & H). injection H as <-.
  exists g. split; [reflexivity|exact Hg].
Qed.

Lemma digits_all (x : N) (m : pystr) :
  ascii_digit x = true -> Forall (fun y => ascii_digit y = true) m ->
  all_digits (x :: m) = true.
Proof.
  intros Hx Hm. unfold all_digits. cbn [forallb]. rewrite Hx. simpl.
  apply forallb_forall. rewrite Forall_forall in Hm. exact Hm.
Qed.

Lemma split_dot_digits (d t : pystr) :
  Forall (fun y => ascii_digit y = true) d ->
  split_dot (d ++ t) = let '(a, b) := split_dot t in (d ++ a, b).
Proof.
  induction 1 as [|x d Hx Hd IH]; simpl.
  - destruct (split_dot t); reflexivity.
  - destruct (x =? 46)%N eqn:E.
    + apply N.eqb_eq in E. subst x. discriminate.
    + rewrite IH. destruct (split_dot t). reflexivity.
Qed.

Lemma int_of_digits_nonneg (s : pystr) :
  Forall (fun y => ascii_digit y = true) s -> 0 <= int_of_digits s.
Proof.
  unfold int_of_digits. intros Hs.
  assert (H : forall acc, 0 <= acc ->
            0 <= fold_left (fun a c => 10 * a + digit_value c) s acc).
  { induction Hs as [|x s Hx Hs IH]; intros acc Hacc; cbn [fold_left];
      [exact Hacc|].
    apply IH. unfold ascii_digit in Hx. apply andb_true_iff in Hx as [Hx _].
    apply N.leb_le in Hx. unfold digit_value. lia. }
  apply H. lia.
Qed.

Lemma rne_div_nonneg (a b : Z) : 0 <= a -> 0 < b -> 0 <= rne_div a b.
Proof.
  intros Ha Hb. unfold rne_div.
  assert (0 <= a / b) by (apply Z.div_pos; assumption).
  destruct (2 * (a mod b) <? b); [assumption|].
  destruct (b <? 2 * (a mod b)); [lia|].
  destruct (Z.even (a / b)); lia.
Qed.

(** [int(float(...))] of a non-negative ratio is a non-negative
    integer, or [OverflowError]. *)
Lemma int_of_float_ratio (n d : Z) :
  0 <= n -> 0 < d ->
  int_of_float (binary64_of_ratio n d) = Raised OverflowError
  \/ exists v, 0 <= v /\ int_of_float (binary64_of_ratio n d) = Returned v.
Proof.
  intros Hn Hd. unfold binary64_of_ratio.
  destruct (n =? 0); [right; exists 0; split; [lia|reflexivity]|].
  set (e := if ge_pow2 n d (Z.log2 n - Z.log2 d)
            then Z.log2 n - Z.log2 d else Z.log2 n - Z.log2 d - 1).
  set (q := Z.max (e - 52) (-1074)).
  set (m := if 0 <=? q then rne_div n (d * 2 ^ q)
            else rne_div (n * 2 ^ (- q)) d).
  assert (Hm : 0 <= m).
  { unfold m. destruct (0 <=? q) eqn:E.
    - apply Z.leb_le in E. apply rne_div_nonneg; [assumption|].
      apply Z.mul_pos_pos; [assumption|]. apply Z.pow_pos_nonneg; lia.
    - apply Z.leb_gt in E. apply rne_div_nonneg; [|assumption].
      apply Z.mul_nonneg_nonneg; [assumption|]. apply Z.pow_nonneg. lia. }
  destruct (1024 <=? q + Z.log2 m); [left; reflexivity|].
  right. cbn [int_of_float]. eexists. split; [|reflexivity].
  destruct (0 <=? q) eqn:E.
  - apply Z.mul_nonneg_nonneg; [assumption|]. apply Z.pow_nonneg. lia.
  - apply Z.leb_gt in E. apply Z.div_pos; [assumption|].
    apply Z.pow_pos_nonneg; lia.
Qed.

(** [float] accepts every text the first pattern captures. *)
Lemma float_of_decimal_literal (g : pystr) :
  matches decimal_literal g ->
  exists n d, 0 <= n /\ 0 < d
              /\ float_of_str g = Returned (binary64_of_ratio n d).
Proof.
  unfold decimal_literal. intros H.
  inversion H as [| | | | |r1 r2 m1 m2 H1 H2|]; subst.
  inversion H1 as [|c x m Hx Hm| | | | |]; subst.
  assert (Hd1 : Forall (fun y => ascii_digit y = true) (x :: m))
    by (constructor; assumption).
  inversion H2 as [| | |r|r m0 Hopt| |]; subst.
  - exists (int_of_digits (x :: m)), 1. rewrite app_nil_r.
    split; [apply int_of_digits_nonneg; exact Hd1|]. split; [lia|].
    unfold float_of_str.
    rewrite <- (app_nil_r (x :: m)) at 1. rewrite split_dot_digits by exact Hd1.
    cbn [split_dot]. rewrite app_nil_r, digits_all by assumption.
    reflexivity.
  - inversion Hopt as [| | | | | |i r m0' Hseq]; subst.
    inversion Hseq as [| | | | |r1 r2 m3 m4 H3 H4|]; subst.
    inversion H3; subst. inversion H4 as [|c y f Hy Hf| | | | |]; subst.
    assert (Hd2 : Forall (fun z => ascii_digit z = true) (y :: f))
      by (constructor; assumption).
    exists (int_of_digits ((x :: m) ++ y :: f)),
           (10 ^ Z.of_nat (List.length (y :: f))).
    split.
    { apply int_of_digits_nonneg. apply Forall_app. split; assumption. }
    split; [apply Z.pow_pos_nonneg; lia|].
    unfold float_of_str. rewrite split_dot_digits by exact Hd1.
    replace (py "." ++ y :: f) with (46%N :: y :: f) by reflexivity.
    cbn [split_dot N.eqb Pos.eqb].
    rewrite app_nil_r, !digits_all by assumption. reflexivity.
Qed.

(** The interpreter's default bound on the number of digits that
    [int(str)] converts ([sys.int_info.default_max_str_digits]); [int]
    is modelled below it, where it is exact. *)
Definition default_max_str_digits : nat := 4300.

(** X11. The parser has one way to fail.  On a message of at most 4300
    characters it returns [None], or a delay that is not negative, or
    raises [OverflowError], the latter only for a message in which
    ["retry in N[.frac]s"] occurs; [float] and [int] never reject what
    the patterns capture. *)
Theorem extract_retry_seconds_outcomes (msg : pystr) :
  (List.length msg <= default_max_str_digits)%nat ->
  _extract_retry_seconds msg = Returned None
  \/ (exists n, 0 <= n /\ _extract_retry_seconds msg = Returned (Some n))
  \/ (_extract_retry_seconds msg = Raised OverflowError
      /\ occurs pat_retry_in msg).
Proof.
  intros _. unfold _extract_retry_seconds.
  destruct (re_search pat_retry_in msg) as [m1|] eqn:E1.
  - destruct (retry_in_group1 msg m1 E1) as (g & -> & Hg).
    destruct (float_of_decimal_literal g Hg) as (n & d & Hn & Hd & ->).
    destruct (int_of_float_ratio n d Hn Hd) as [-> | (v & Hv & ->)].
    + right. right. split; [reflexivity|].
      eapply re_search_some_occurs. exact E1.
    + right. left. exists v. auto.
  - destruct (re_search pat_retryDelay msg) as [m2|] eqn:E2.
    + destruct (retryDelay_group1 msg m2 E2) as (g & -> & Hg).
      inversion Hg as [|c x m Hx Hm| | | | |]; subst.
      unfold int_of_str. rewrite digits_all by assumption.
      right. left. eexists. split; [|reflexivity].
      apply int_of_digits_nonneg. constructor; assumption.
    + left. reflexivity.
Qed.

Lemma extract_retry_seconds_outcomes_witness :
  _extract_retry_seconds huge_delay_message = Returned None
  \/ (exists n, 0 <= n
                /\ _extract_retry_seconds huge_delay_message
                   = Returned (Some n))
  \/ (_extract_retry_seconds huge_delay_message = Raised OverflowError
      /\ occurs pat_retry_in huge_delay_message).
Proof.
  apply (extract_retry_seconds_outcomes huge_delay_message).
  apply Nat.leb_le. vm_compute. reflexivity.
Defined.

(** ** Flooring through a double *)

(** [int(float(s))], as the parser computes it on group 1. *)
Definition int_of_float_str (s : pystr) : result Z :=
  match float_of_str s with
  | Returned x => int_of_float x
  | Raised e => Raised e
  end.

Lemma rne_div_bounds (a b : Z) :
  0 <= a -> 0 < b ->
  a / b <= rne_div a b /\ 2 * rne_div a b * b <= 2 * a + b.
Proof.
  intros Ha Hb. unfold rne_div.
  pose proof (Z.div_mod a b ltac:(lia)) as Hdm.
  pose proof (Z.mod_pos_bound a b Hb) as Hr.
  destruct (2 * (a mod b) <? b) eqn:E1.
  - apply Z.ltb_lt in E1. split; [lia|nia].
  - apply Z.ltb_ge in E1. destruct (b <? 2 * (a mod b)) eqn:E2.
    + apply Z.ltb_lt in E2. split; [lia|nia].
    + apply Z.ltb_ge in E2. destruct (Z.even (a / b)); split; try lia; nia.
Qed.

Lemma log2_le_52 (n : Z) : 0 < n -> n < 2 ^ 53 -> Z.log2 n <= 52.
Proof.
  intros Hn Hlt. pose proof (Z.log2_spec n Hn) as [Hlo _].
  destruct (Z_le_gt_dec (Z.log2 n) 52) as [H|H]; [exact H|].
  exfalso. assert (2 ^ 53 <= 2 ^ Z.log2 n)
    by (apply Z.pow_le_mono_r; lia). lia.
Qed.

(** The conversion through a double floors exactly while
    [d * (n / d + 1) <= 2 ^ 53]: a delay with three decimals is safe up
    to nine million million seconds. *)
Lemma int_of_float_ratio_floor (n d : Z) :
  0 <= n -> 0 < d ->
  d * (n / d + 1) <= 2 ^ 53 ->
  int_of_float (binary64_of_ratio n d) = Returned (n / d).
Proof.
  intros Hn Hd Hbound. unfold binary64_of_ratio.
  destruct (n =? 0) eqn:En.
  { apply Z.eqb_eq in En. subst n. rewrite Z.div_0_l by lia. reflexivity. }
  apply Z.eqb_neq in En. cbv zeta.
  pose proof (Z.div_mod n d ltac:(lia)) as Hdm.
  pose proof (Z.mod_pos_bound n d Hd) as Hr.
  assert (HI : 0 <= n / d) by (apply Z.div_pos; lia).
  assert (Hnlt : n < 2 ^ 53) by nia.
  assert (Hln : Z.log2 n <= 52) by (apply log2_le_52; lia).
  assert (Hld : 0 <= Z.log2 d) by apply Z.log2_nonneg.
  assert (Hld2 : Z.log2 d <= 53).
  { assert (d <= 2 ^ 53) by nia.
    rewrite <- (Z.log2_pow2 53) by lia. apply Z.log2_le_mono. assumption. }
  set (e0 := Z.log2 n - Z.log2 d).
  set (e := if ge_pow2 n d e0 then e0 else e0 - 1).
  assert (He : e <= e0) by (unfold e; destruct (ge_pow2 n d e0); lia).
  set (q := Z.max (e - 52) (-1074)).
  assert (Hq : q <= 0) by (unfold q, e0 in *; lia).
  (* d < 2 ^ (1 - q) *)
  assert (Hdq : d < 2 ^ (1 - q)).
  { pose proof (Z.log2_spec d Hd) as [_ Hhi].
    assert (2 ^ Z.succ (Z.log2 d) <= 2 ^ (1 - q)).
    { apply Z.pow_le_mono_r; [lia|]. unfold q, e0 in *. lia. }
    lia. }
  (* the mantissa, whichever branch computes it *)
  set (m := if 0 <=? q then rne_div n (d * 2 ^ q)
            else rne_div (n * 2 ^ (- q)) d).
  set (k := - q) in *. assert (Hk : 0 <= k) by (unfold k; lia).
  assert (H2k : 0 < 2 ^ k) by (apply Z.pow_pos_nonneg; lia).
  assert (Hdk : d < 2 * 2 ^ k).
  { replace (1 - q) with (Z.succ k) in Hdq by (unfold k; lia).
    rewrite Z.pow_succ_r in Hdq by lia. exact Hdq. }
  assert (Hm : (n / d) * 2 ^ k <= m < (n / d + 1) * 2 ^ k).
  { unfold m. destruct (0 <=? q) eqn:E.
    - apply Z.leb_le in E. assert (q = 0) by lia.
      assert (k = 0) by (unfold k; lia).
      replace (2 ^ q) with 1 by (subst q; rewrite H; reflexivity).
      replace (2 ^ k) with 1 in * by (rewrite H0; reflexivity).
      rewrite !Z.mul_1_r.
      destruct (rne_div_bounds n d Hn Hd) as [Hlo Hhi]. split; [lia|nia].
    - fold k.
      assert (Hnk : 0 <= n * 2 ^ k) by nia.
      destruct (rne_div_bounds (n * 2 ^ k) d Hnk Hd) as [Hlo Hhi].
      split.
      + assert ((n / d) * 2 ^ k <= n * 2 ^ k / d).
        { apply Z.div_le_lower_bound; [lia|]. nia. }
        lia.
      + nia. }
  assert (Hm0 : 0 <= m) by nia.
  assert (Hlog : q + Z.log2 m < 1024).
  { destruct (Z.eq_dec m 0) as [->|Hmz]; [simpl; lia|].
    assert (Hmlt : m < 2 ^ (53 + k)).
    { rewrite Z.pow_add_r by lia. nia. }
    assert (Z.log2 m < 53 + k) by (apply Z.log2_lt_pow2; lia).
    unfold k in *. lia. }
  destruct (1024 <=? q + Z.log2 m) eqn:Eo; [apply Z.leb_le in Eo; lia|].
  cbn [int_of_float]. f_equal.
  destruct (0 <=? q) eqn:E.
  - apply Z.leb_le in E. assert (k = 0) by (unfold k; lia).
    replace (2 ^ q) with 1 by (replace q with 0 by lia; reflexivity).
    replace (2 ^ k) with 1 in Hm by (rewrite H; reflexivity). lia.
  - fold k. symmetry. apply Z.div_unique with (r := m - (n / d) * 2 ^ k).
    + left. lia.
    + lia.
Qed.

Lemma fold_digits_acc (s : pystr) (acc : Z) :
  fold_left (fun a c => 10 * a + digit_value c) s acc
  = acc * 10 ^ Z.of_nat (List.length s) + int_of_digits s.
Proof.
  unfold int_of_digits. revert acc.
  induction s as [|c s IH]; intros acc.
  - cbn [fold_left List.length]. change (10 ^ Z.of_nat 0) with 1. lia.
  - cbn [fold_left List.length]. rewrite IH, (IH (10 * 0 + digit_value c)).
    rewrite Nat2Z.inj_succ, Z.pow_succ_r by lia. ring.
Qed.

Lemma int_of_digits_app (a b : pystr) :
  int_of_digits (a ++ b)
  = int_of_digits a * 10 ^ Z.of_nat (List.length b) + int_of_digits b.
Proof.
  unfold int_of_digits at 1. rewrite fold_left_app.
  fold (int_of_digits a). apply fold_digits_acc.
Qed.

Lemma int_of_digits_bound (s : pystr) :
  Forall (fun y => ascii_digit y = true) s ->
  0 <= int_of_digits s < 10 ^ Z.of_nat (List.length s).
Proof.
  induction s as [|c s IH] using rev_ind; intros Hs.
  - cbn. lia.
  - apply Forall_app in Hs as [Hs Hc]. inversion Hc as [|? ? Hd _]; subst.
    specialize (IH Hs). rewrite int_of_digits_app, length_app.
    cbn [List.length]. rewrite Nat2Z.inj_add.
    change (Z.of_nat (0 + 1)) with 1. change (Z.of_nat 1) with 1.
    rewrite Z.pow_add_r by lia. change (10 ^ 1) with 10.
    assert (0 <= int_of_digits [c] <= 9).
    { unfold int_of_digits, digit_value, ascii_digit in *. cbn [fold_left].
      apply andb_true_iff in Hd as [H1 H2].
      apply N.leb_le in H1. apply N.leb_le in H2. lia. }
    nia.
Qed.

Lemma all_digits_forall (s : pystr) :
  all_digits s = true ->
  s <> [] /\ Forall (fun y => ascii_digit y = true) s.
Proof.
  unfold all_digits. destruct s as [|c s]; [discriminate|].
  intros H. split; [discriminate|]. apply Forall_forall.
  apply forallb_forall. exact H.
Qed.

(** An integer part [ip] with an optional fraction, as the first
    pattern captures it. *)
Definition literal (ip : pystr) (frac : option pystr) : pystr :=
  ip ++ match frac with
        | Some fp => py "." ++ fp
        | None => []
        end.

(** The denominator of the fraction. *)
Definition scale (frac : option pystr) : Z :=
  match frac with
  | Some fp => 10 ^ Z.of_nat (List.length fp)
  | None => 1
  end.

Definition frac_ok (frac : option pystr) : bool :=
  match frac with
  | Some fp => all_digits fp
  | None => true
  end.

(** [int(float(s))] is the integer part of [s] while that part, scaled
    by the fraction's denominator, stays within 53 bits. *)
Lemma int_of_float_str_floor (ip : pystr) (frac : option pystr) :
  all_digits ip = true -> frac_ok frac = true ->
  scale frac * (int_of_digits ip + 1) <= 2 ^ 53 ->
  int_of_float_str (literal ip frac) = Returned (int_of_digits ip).
Proof.
  intros Hip Hfrac Hbound.
  destruct (all_digits_forall ip Hip) as [_ Hd1].
  pose proof (int_of_digits_bound ip Hd1) as [Hi0 _].
  unfold int_of_float_str, float_of_str, literal.
  destruct frac as [fp|]; cbn [frac_ok scale] in *.
  - destruct (all_digits_forall fp Hfrac) as [_ Hd2].
    rewrite split_dot_digits by exact Hd1.
    replace (py "." ++ fp) with (46%N :: fp) by reflexivity.
    cbn [split_dot N.eqb Pos.eqb]. rewrite app_nil_r, Hip, Hfrac.
    cbn [andb].
    pose proof (int_of_digits_bound fp Hd2) as Hf.
    assert (Hpow : 0 < 10 ^ Z.of_nat (List.length fp))
      by (apply Z.pow_pos_nonneg; lia).
    assert (Hdiv : int_of_digits (ip ++ fp) / 10 ^ Z.of_nat (List.length fp)
                   = int_of_digits ip).
    { rewrite int_of_digits_app. symmetry.
      apply Z.div_unique with (r := int_of_digits fp); [left; lia|ring]. }
    rewrite int_of_float_ratio_floor.
    + rewrite Hdiv. reflexivity.
    + rewrite int_of_digits_app. nia.
    + exact Hpow.
    + rewrite Hdiv. exact Hbound.
  - rewrite split_dot_digits by exact Hd1.
    cbn [split_dot]. rewrite app_nil_r, Hip.
    rewrite int_of_float_ratio_floor.
    + rewrite Z.div_1_r. reflexivity.
    + exact Hi0.
    + lia.
    + rewrite Z.div_1_r. exact Hbound.
Qed.

(** What follows a greedy run: nothing, or a character outside the
    class. *)
Definition stops_at (c : charclass) (t : pystr) : bool :=
  match t with
  | [] => true
  | x :: _ => negb (c x)
  end.

(** A greedy run takes all of [d] when the continuation accepts what
    follows it. *)
Lemma star_class_greedy {A : Type} (c : charclass) (d t : pystr)
    (k : pystr -> option A) (res : A) :
  Forall (fun y => c y = true) d -> stops_at c t = true ->
  k t = Some res ->
  star_class c (d ++ t) k = Some res.
Proof.
  intros Hd Ht Hk. induction Hd as [|y d Hy Hd IH]; simpl.
  - destruct t as [|x t]; [exact Hk|].
    simpl in Ht. apply negb_true_iff in Ht. simpl. rewrite Ht. exact Hk.
  - rewrite Hy, IH. reflexivity.
Qed.

Lemma plus_class_greedy {A : Type} (c : charclass) (d t : pystr)
    (k : pystr -> option A) (res : A) :
  d <> [] -> Forall (fun y => c y = true) d -> stops_at c t = true ->
  k t = Some res ->
  plus_class c (d ++ t) k = Some res.
Proof.
  intros Hne Hd Ht Hk. destruct d as [|y d]; [congruence|].
  inversion Hd as [|? ? Hy Hd']; subst. simpl. rewrite Hy.
  apply star_class_greedy; assumption.
Qed.

Lemma bt_lit_app (l s : pystr) (cs : captures) k :
  bt (Lit l) (l ++ s) cs k = k s cs.
Proof. cbn [bt]. rewrite strip_prefix_app. reflexivity. Qed.

Lemma bt_seq (r1 r2 : regex) (s : pystr) (cs : captures) k :
  bt (Seq r1 r2) s cs k = bt r1 s cs (fun s1 c1 => bt r2 s1 c1 k).
Proof. reflexivity. Qed.

Lemma bt_plus (c : charclass) (s : pystr) (cs : captures) k :
  bt (Plus c) s cs k = plus_class c s (fun s' => k s' cs).
Proof. reflexivity. Qed.

Lemma bt_group_eq (i : nat) (r : regex) (s : pystr) (cs : captures) k :
  bt (Group i r) s cs k
  = bt r s cs (fun s1 c1 => k s1 ((i, consumed s s1) :: c1)).
Proof. reflexivity. Qed.

Lemma bt_opt_take (r : regex) (s : pystr) (cs : captures) k res :
  bt r s cs k = Some res -> bt (Opt r) s cs k = Some res.
Proof. intros H. cbn [bt]. rewrite H. reflexivity. Qed.

Lemma bt_opt_skip (r : regex) (s : pystr) (cs : captures) k :
  bt r s cs k = None -> bt (Opt r) s cs k = k s cs.
Proof. intros H. cbn [bt]. rewrite H. reflexivity. Qed.

Lemma bt_lit_mismatch (l s : pystr) (cs : captures) k :
  strip_prefix l s = None -> bt (Lit l) s cs k = None.
Proof. intros H. cbn [bt]. rewrite H. reflexivity. Qed.

(** The match of the first pattern at the start of
    ["retry in " + literal + "s" + ...]. *)
Lemma match_here_retry_in (ip : pystr) (frac : option pystr) (suf : pystr) :
  all_digits ip = true -> frac_ok frac = true ->
  exists cs,
    match_here pat_retry_in
      (py "retry in " ++ literal ip frac ++ py "s" ++ suf) = Some cs
    /\ group 1 cs = Some (literal ip frac).
Proof.
  intros Hip Hfrac.
  destruct (all_digits_forall ip Hip) as [Hne1 Hd1].
  unfold match_here, pat_retry_in.
  rewrite bt_seq, bt_lit_app, bt_seq, bt_group_eq, bt_seq, bt_plus.
  destruct frac as [fp|]; cbn [frac_ok] in Hfrac.
  - destruct (all_digits_forall fp Hfrac) as [Hne2 Hd2].
    exists [(1%nat, literal ip (Some fp)); (2%nat, py "." ++ fp)].
    split; [|reflexivity].
    unfold literal. rewrite <- !app_assoc.
    apply plus_class_greedy; [exact Hne1|exact Hd1|reflexivity|].
    apply bt_opt_take.
    rewrite bt_group_eq, bt_seq, bt_lit_app, bt_plus.
    apply plus_class_greedy; [exact Hne2|exact Hd2|reflexivity|].
    rewrite bt_lit_app.
    replace (ip ++ py "." ++ fp ++ py "s" ++ suf)
      with ((ip ++ py "." ++ fp) ++ py "s" ++ suf)
      by (rewrite <- !app_assoc; reflexivity).
    rewrite consumed_app.
    replace (py "." ++ fp ++ py "s" ++ suf)
      with ((py "." ++ fp) ++ py "s" ++ suf)
      by (rewrite <- !app_assoc; reflexivity).
    rewrite consumed_app. reflexivity.
  - exists [(1%nat, literal ip None)]. split; [|reflexivity].
    unfold literal. rewrite app_nil_r.
    apply plus_class_greedy; [exact Hne1|exact Hd1|reflexivity|].
    rewrite bt_opt_skip.
    + rewrite bt_lit_app, consumed_app. reflexivity.
    + rewrite bt_group_eq, bt_seq. apply bt_lit_mismatch. reflexivity.
Qed.

(** No match of [r] starts at the beginning of [u]. *)
Definition no_match_at (r : regex) (u : pystr) : Prop :=
  forall m rest, u = m ++ rest -> ~ matches r m.

(** No match of [r] in [pre ++ t] starts inside [pre]. *)
Definition no_earlier_match (r : regex) (pre t : pystr) : Prop :=
  forall pre1 pre2,
    pre = pre1 ++ pre2 -> pre2 <> [] -> no_match_at r (pre2 ++ t).

Lemma match_here_none (r : regex) (u : pystr) :
  no_match_at r u -> match_here r u = None.
Proof.
  intros Hno. destruct (match_here r u) as [res|] eqn:E; [|reflexivity].
  exfalso. apply bt_sound in E as (m & s' & _ & Hs & Hm & _).
  exact (Hno m s' Hs Hm).
Qed.

Lemma re_search_cons (r : regex) (x : N) (s : pystr) :
  re_search r (x :: s)
  = match match_here r (x :: s) with
    | Some c => Some c
    | None => re_search r s
    end.
Proof. reflexivity. Qed.

Lemma re_search_hit (r : regex) (s : pystr) (cs : captures) :
  match_here r s = Some cs -> re_search r s = Some cs.
Proof.
  intros H. destruct s as [|x s]; [cbn [re_search]|rewrite re_search_cons];
    rewrite H; reflexivity.
Qed.

(** The search goes past a prefix in which no match starts. *)
Lemma re_search_skip (r : regex) (pre t : pystr) :
  no_earlier_match r pre t ->
  re_search r (pre ++ t) = re_search r t.
Proof.
  induction pre as [|x pre IH]; intros Hno; [reflexivity|].
  cbn [app]. rewrite re_search_cons.
  rewrite (match_here_none r (x :: pre ++ t)).
  - apply IH. intros p1 p2 Hp Hne. apply (Hno (x :: p1) p2); [|exact Hne].
    simpl. rewrite Hp. reflexivity.
  - apply (Hno [] (x :: pre)); [reflexivity|discriminate].
Qed.

(** Every match of the first pattern starts with an ['r']. *)
Lemma retry_in_starts_with_r (m : pystr) :
  matches pat_retry_in m -> exists m', m = 114%N :: m'.
Proof.
  unfold pat_retry_in. intros H.
  inversion H as [| | | | |r1 r2 m1 m2 H1 H2|]; subst.
  inversion H1; subst. eexists. reflexivity.
Qed.

Lemma no_r_no_earlier_match (pre t : pystr) :
  ~ In 114%N pre -> no_earlier_match pat_retry_in pre t.
Proof.
  intros Hnr p1 p2 Hp Hne m rest Hm Hmatch.
  destruct (retry_in_starts_with_r m Hmatch) as (m' & ->).
  destruct p2 as [|c p2]; [congruence|].
  simpl in Hm. injection Hm as -> _.
  apply Hnr. rewrite Hp. apply in_or_app. right. left. reflexivity.
Qed.

(** X12. Flooring, in general: for a message whose first occurrence of
    ["retry in N[.frac]s"] carries the integer part [ip] and possibly a
    fraction, the parser returns the integer value of [ip], the floor
    of the delay, whatever surrounds the occurrence, as long as that
    value (plus one), scaled by the fraction's denominator, stays
    within 53 bits; the rounding of the double never shows in that
    range. *)
Theorem extract_retry_seconds_floors
    (pre ip : pystr) (frac : option pystr) (suf : pystr) :
  no_earlier_match pat_retry_in pre
    (py "retry in " ++ literal ip frac ++ py "s" ++ suf) ->
  all_digits ip = true -> frac_ok frac = true ->
  scale frac * (int_of_digits ip + 1) <= 2 ^ 53 ->
  _extract_retry_seconds
    (pre ++ py "retry in " ++ literal ip frac ++ py "s" ++ suf)
  = Returned (Some (int_of_digits ip)).
Proof.
  intros Hpre Hip Hfrac Hbound. unfold _extract_retry_seconds.
  rewrite re_search_skip by exact Hpre.
  destruct (match_here_retry_in ip frac suf Hip Hfrac) as (cs & Hcs & Hg).
  assert (Hsearch : re_search pat_retry_in
                      (py "retry in " ++ literal ip frac ++ py "s" ++ suf)
                    = Some cs).
  { apply re_search_hit. exact Hcs. }
  rewrite Hsearch, Hg.
  pose proof (int_of_float_str_floor ip frac Hip Hfrac Hbound) as Hfloor.
  unfold int_of_float_str in Hfloor.
  destruct (float_of_str (literal ip frac)) as [x|e]; [|discriminate].
  rewrite Hfloor. reflexivity.
Qed.

Lemma extract_retry_seconds_floors_witness :
  _extract_retry_seconds
    (py "... Please " ++ py "retry in " ++ literal (py "38") (Some (py "507"))
     ++ py "s" ++ py ".")
  = Returned (Some (int_of_digits (py "38"))).
Proof.
  apply (extract_retry_seconds_floors (py "... Please ") (py "38")
           (Some (py "507")) (py ".")).
  - apply no_r_no_earlier_match. vm_compute. intuition discriminate.
  - reflexivity.
  - reflexivity.
  - vm_compute. discriminate.
Defined.

(** ** When the handler fails *)

(** An exception that leaves the gateway was raised by the parser, on
    the message of a rate-limit error. *)
Lemma fallback_loop_raises (env : environment) (prompt : pystr) (mw : Z) :
  forall (models : list pystr) (lr : option Z) (w : world) e w',
    fallback_loop env models prompt mw lr w = (Raised e, w') ->
    exists i model status msg,
      generate_content env i model prompt = RaisesClientError status msg
      /\ is_rate_limit status msg = true
      /\ _extract_retry_seconds msg = Raised e.
Proof.
  induction models as [|model rest IH]; intros lr w e w' Hrun.
  - simpl in Hrun. discriminate.
  - rewrite fallback_loop_cons in Hrun. cbv zeta in Hrun.
    destruct (generate_content env (w_calls w) model prompt)
      as [text|status msg|] eqn:Hcall; [discriminate| |discriminate].
    destruct (is_rate_limit status msg) eqn:Hrl; [|discriminate].
    destruct (_extract_retry_seconds msg) as [retry_sec|e0] eqn:Hparse.
    + destruct (waits mw retry_sec); eapply IH; exact Hrun.
    + injection Hrun as <- _.
      exists (w_calls w), model, status, msg. auto.
Qed.

(** X13. When the handler fails (the store and the transport working):
    if [handle_message] raises, the exception is one that the delay
    parser raised on the message of a rate-limit error of the backend;
    the event had a usable sender, whose user row is stored by then;
    and neither a log row nor a reply came out of the event, so the
    user's report is lost without an answer. *)
Theorem handle_message_failure_mode
    (env : environment) (event : message_event) (w : world) (e : exn) :
  outcome_of (handle_message env event) w = Raised e ->
  let w' := final (handle_message env event) w in
  (exists i model prompt status msg,
      generate_content env i model prompt = RaisesClientError status msg
      /\ is_rate_limit status msg = true
      /\ _extract_retry_seconds msg = Raised e)
  /\ (exists uid, source_user_id event = Some uid
                  /\ has_user uid (w_db w') = true)
  /\ daily_logs (w_db w') = daily_logs (w_db w)
  /\ replies (new_events (handle_message env event) w) = [].
Proof.
  intros Hout w'.
  destruct (truthy_str (source_user_id event)) eqn:Hs.
  2:{ unfold outcome_of in Hout.
      rewrite (handle_message_no_sender env event w Hs) in Hout.
      discriminate. }
  destruct (truthy_sender event Hs) as (uid & Hsrc & Hne).
  pose proof (has_user_after_insert uid
                (isoformat (clock env (w_ticks w))) (w_db w)) as Hhas.
  destruct (daily_logs_after_insert_user uid
              (isoformat (clock env (w_ticks w))) (w_db w)) as [Hl _].
  unfold w', new_events, outcome_of, final in *.
  destruct (is_profile_query (message_of event)) eqn:Hq.
  - rewrite (handle_message_profile env event uid w Hsrc Hne Hq) in *.
    destruct (generate_with_fallback env (profile_prompt env uid w) 0
                (before_gateway env uid 30 w)) as [r w2] eqn:Hgw.
    destruct (gateway_frame _ _ _ _ _ _ Hgw) as (Hdb & _ & evs & Htr & Hall).
    cbn [before_gateway w_db w_trace] in Hdb, Htr.
    destruct r as [[[text used_model] retry_sec]|e0]; [discriminate|].
    cbn [fst snd w_trace] in *. injection Hout as ->.
    destruct (fallback_loop_raises _ _ _ _ _ _ _ _ Hgw)
      as (i & model & status & msg & H1 & H2 & H3).
    split; [do 5 eexists; repeat split; eassumption|].
    rewrite Hdb. split; [exists uid; auto|]. split; [exact Hl|].
    rewrite Htr, <- !app_assoc, skipn_length_app.
    exact (gateway_events_no_reply evs Hall).
  - rewrite (handle_message_report env event uid w Hsrc Hne Hq) in *.
    destruct (generate_with_fallback env (report_prompt env event uid w) 0
                (before_gateway env uid 10 w)) as [r w2] eqn:Hgw.
    destruct (gateway_frame _ _ _ _ _ _ Hgw) as (Hdb & _ & evs & Htr & Hall).
    cbn [before_gateway w_db w_trace] in Hdb, Htr.
    destruct r as [[[text used_model] retry_sec]|e0]; [discriminate|].
    cbn [fst snd w_trace] in *. injection Hout as ->.
    destruct (fallback_loop_raises _ _ _ _ _ _ _ _ Hgw)
      as (i & model & status & msg & H1 & H2 & H3).
    split; [do 5 eexists; repeat split; eassumption|].
    rewrite Hdb. split; [exists uid; auto|]. split; [exact Hl|].
    rewrite Htr, <- !app_assoc, skipn_length_app.
    exact (gateway_events_no_reply evs Hall).
Qed.

Lemma handle_message_failure_mode_witness :
  let w' := final (handle_message env_huge_delay report_event) fresh_world in
  (exists i model prompt status msg,
      generate_content env_huge_delay i model prompt
        = RaisesClientError status msg
      /\ is_rate_limit status msg = true
      /\ _extract_retry_seconds msg = Raised OverflowError)
  /\ (exists uid, source_user_id report_event = Some uid
                  /\ has_user uid (w_db w') = true)
  /\ daily_logs (w_db w') = daily_logs (w_db fresh_world)
  /\ replies (new_events (handle_message env_huge_delay report_event)
                fresh_world) = [].
Proof.
  apply (handle_message_failure_mode env_huge_delay report_event fresh_world
           OverflowError).
  vm_compute. reflexivity.
Defined.

(** ** The nightly job over a transport that can fail

    [push_text] raises when the transport fails; the job catches the
    exception inside the loop and prints a line.  The transport is an
    oracle: [push_error n uid] is [str(e)] when the [n]-th push of the
    job, the one to [uid], raises [e], and [None] when it returns. *)

Module Nightly.

(** The pushes attempted and the lines printed, in program order. *)
Record journal : Type := mk_journal {
  attempted : list (pystr * pystr);
  printed : list pystr
}.

(** [f"[push failed] user={uid} err={e}"] *)
Definition push_failed (uid err : pystr) : pystr :=
  py "[push failed] user=" ++ uid ++ py " err=" ++ err.

Section Transport.

Variable push_error : nat -> pystr -> option pystr.

Fixpoint push_loop (n : nat) (users : list pystr) : journal :=
  match users with
  | [] => mk_journal [] []
  | uid :: rest =>
    let j := push_loop (S n) rest in
    match push_error n uid with
    | None => mk_journal ((uid, DAILY_QUESTION) :: attempted j) (printed j)
    | Some err =>
      mk_journal ((uid, DAILY_QUESTION) :: attempted j)
        (push_failed uid err :: printed j)
    end
  end.

Definition nightly_checkin_job (db : database) : journal :=
  push_loop 0 (sql_select_user_ids db).

End Transport.
End Nightly.






(** ** Prompt builders *)

(** One history line of the daily prompt:
    [f"- [{r['log_date']}] ユーザー: {r['user_text']}\n  AI: {r['ai_reply']}\n"] *)
Definition recent_line (r : recent_row) : pystr :=
  py "- [" ++ r_log_date r ++ py "] ユーザー: " ++ r_user_text r
    ++ LF ++ py "  AI: " ++ r_ai_reply r ++ LF.

(** One log line of the profile prompt:
    [f"- [{r['log_date']}] {r['user_text']}\n"] *)
Definition profile_line (r : recent_row) : pystr :=
  py "- [" ++ r_log_date r ++ py "] " ++ r_user_text r ++ LF.

Lemma fold_left_append {A : Type} (f : A -> pystr) (l : list A) (acc : pystr) :
  fold_left (fun txt r => txt ++ f r) l acc = acc ++ List.concat (map f l).
Proof.
  revert acc. induction l as [|x l IH]; intros acc; simpl.
  - rewrite app_nil_r. reflexivity.
  - rewrite IH, <- app_assoc. reflexivity.
Qed.

Lemma build_recent_text_lines (rows : list recent_row) :
  build_recent_text rows
  = match rows with
    | [] => py "(履歴なし)"
    | _ => List.concat (map recent_line (rev rows))
    end.
Proof.
  unfold build_recent_text. destruct rows as [|r rows]; [reflexivity|].
  exact (fold_left_append recent_line (rev (r :: rows)) []).
Qed.

(** The last [n] elements of a list. *)
Definition last_n {A : Type} (n : nat) (l : list A) : list A :=
  skipn (List.length l - n) l.

(** X15. The history in the daily prompt is the user's latest entries
    in the order they were written: on a store whose rowids grow with
    insertion, [build_recent_text] applied to what [get_recent_logs]
    selects for a limit that is a count renders the last [limit] rows
    of that user, oldest first, one line pair per row, and the marker
    for an empty history when there is none to show. *)
Theorem build_recent_text_chronological
    (uid : pystr) (limit : Z) (db : database) :
  ids_increasing db -> 0 <= limit < 2 ^ 63 ->
  exists rows,
    sql_select_recent uid limit db = Returned rows
    /\ build_recent_text rows
       = match last_n (Z.to_nat limit) (where_user_id uid (daily_logs db)) with
         | [] => py "(履歴なし)"
         | shown => List.concat (map (fun r => recent_line (project r)) shown)
         end.
Proof.
  intros Hinc [Hlo Hhi].
  exists (map project (selected_logs uid limit db)). split.
  - unfold sql_select_recent.
    destruct (limit <? - 2 ^ 63) eqn:E1; [apply Z.ltb_lt in E1; lia|].
    destruct (2 ^ 63 <=? limit) eqn:E2; [apply Z.leb_le in E2; lia|].
    reflexivity.
  - rewrite build_recent_text_lines.
    rewrite (selected_logs_newest_first uid limit db Hinc Hlo).
    set (mine := where_user_id uid (daily_logs db)).
    rewrite firstn_rev. fold (last_n (Z.to_nat limit) mine).
    destruct (last_n (Z.to_nat limit) mine) as [|r shown] eqn:E.
    + reflexivity.
    + rewrite <- map_rev, rev_involutive, map_map.
      destruct (rev (r :: shown)) as [|x xs] eqn:Erev.
      * apply (f_equal (@List.length log_row)) in Erev.
        rewrite length_rev in Erev. discriminate.
      * reflexivity.
Qed.

Definition two_reports : database :=
  with_log
    (with_log (init_db None) (py "U1") (py "2026-11-03") (py "first")
       (py "reply 1") None (py "2026-11-03T21:05:00+09:00"))
    (py "U1") (py "2026-11-04") (py "second") (py "reply 2")
    (Some first_candidate) (py "2026-11-04T21:05:00+09:00").

Lemma build_recent_text_chronological_witness :
  exists rows,
    sql_select_recent (py "U1") 1 two_reports = Returned rows
    /\ build_recent_text rows
       = match last_n (Z.to_nat 1)
                 (where_user_id (py "U1") (daily_logs two_reports)) with
         | [] => py "(履歴なし)"
         | shown => List.concat (map (fun r => recent_line (project r)) shown)
         end.
Proof.
  apply (build_recent_text_chronological (py "U1") 1 two_reports).
  - unfold ids_increasing. vm_compute. repeat constructor.
  - split; [discriminate|reflexivity].
Defined.

Lemma profile_lines_agree (rows1 rows2 : list recent_row) :
  map r_log_date rows1 = map r_log_date rows2 ->
  map r_user_text rows1 = map r_user_text rows2 ->
  map profile_line rows1 = map profile_line rows2.
Proof.
  revert rows2. induction rows1 as [|a rows1 IH]; intros [|b rows2] Hd Ht;
    try discriminate; [reflexivity|].
  simpl in Hd, Ht. injection Hd as Hd1 Hd. injection Ht as Ht1 Ht.
  cbn [map]. rewrite (IH rows2 Hd Ht). unfold profile_line.
  rewrite Hd1, Ht1. reflexivity.
Qed.

(** X16. The profile prompt is built from the dates and the user's own
    words only: two histories that agree on the dates and the user
    texts of their rows give the same prompt, whatever the stored AI
    replies, model names and timestamps are. *)
Theorem build_profile_prompt_ignores_replies (rows1 rows2 : list recent_row) :
  map r_log_date rows1 = map r_log_date rows2 ->
  map r_user_text rows1 = map r_user_text rows2 ->
  build_profile_prompt rows1 = build_profile_prompt rows2.
Proof.
  intros Hd Ht.
  pose proof (profile_lines_agree rows1 rows2 Hd Ht) as Hlines.
  unfold build_profile_prompt. cbv zeta.
  repeat (apply f_equal2; [reflexivity|]).
  apply f_equal2; [|reflexivity].
  destruct rows1 as [|a rows1], rows2 as [|b rows2]; try discriminate;
    [reflexivity|].
  etransitivity;
    [exact (fold_left_append profile_line (rev (a :: rows1)) [])|].
  symmetry. etransitivity;
    [exact (fold_left_append profile_line (rev (b :: rows2)) [])|].
  rewrite !map_rev, Hlines. reflexivity.
Qed.

Definition history_a : list recent_row :=
  [mk_recent (py "2026-11-04") (py "ES wo kaita") (py "reply A") None
     (py "2026-11-04T21:05:00+09:00")].

Definition history_b : list recent_row :=
  [mk_recent (py "2026-11-04") (py "ES wo kaita") (py "reply B")
     (Some first_candidate) (py "2026-11-04T23:00:00+09:00")].

Lemma build_profile_prompt_ignores_replies_witness :
  build_profile_prompt history_a = build_profile_prompt history_b.
Proof.
  apply (build_profile_prompt_ignores_replies history_a history_b);
    vm_compute; reflexivity.
Defined.

(** ** The second pattern reads the delay exactly *)

Lemma bt_star_eq (c : charclass) (s : pystr) (cs : captures) k :
  bt (Star c) s cs k = star_class c s (fun s' => k s' cs).
Proof. reflexivity. Qed.

Lemma ascii_digit_is_digit (y : N) :
  ascii_digit y = true -> non_digit y = false.
Proof.
  unfold ascii_digit, non_digit, unicode_digit. intros H.
  apply andb_true_iff in H as [H1 H2].
  apply N.leb_le in H1. apply N.leb_le in H2.
  apply negb_false_iff. apply existsb_exists. exists 48%N. split.
  - left. reflexivity.
  - apply andb_true_iff. split; [apply N.leb_le|apply N.ltb_lt]; lia.
Qed.

(** The match of the second pattern at the start of
    ["retryDelay" + sep + digits + "s" + ...]. *)
Lemma match_here_retryDelay (sep ip suf : pystr) :
  forallb non_digit sep = true -> all_digits ip = true ->
  exists cs,
    match_here pat_retryDelay
      (py "retryDelay" ++ sep ++ ip ++ py "s" ++ suf) = Some cs
    /\ group 1 cs = Some ip.
Proof.
  intros Hsep Hip.
  destruct (all_digits_forall ip Hip) as [Hne Hd].
  exists [(1%nat, ip)]. split; [|reflexivity].
  unfold match_here, pat_retryDelay.
  rewrite bt_seq, bt_lit_app, bt_seq, bt_star_eq.
  apply star_class_greedy.
  - apply Forall_forall. apply forallb_forall. exact Hsep.
  - destruct ip as [|y ip]; [congruence|].
    inversion Hd as [|? ? Hy _]; subst. cbn [app stops_at].
    rewrite (ascii_digit_is_digit y Hy). reflexivity.
  - rewrite bt_seq, bt_group_eq, bt_plus.
    apply plus_class_greedy; [exact Hne|exact Hd|reflexivity|].
    rewrite bt_lit_app, consumed_app. reflexivity.
Qed.

(** X17. The second pattern reads the delay exactly: in a message in
    which ["retry in N[.frac]s"] does not occur and whose first
    ["retryDelay"], followed by characters that are not digits and then
    by at most 4300 ASCII digits and an ['s'], is where the second
    pattern first matches, the parser returns the integer those digits
    spell, without rounding, whatever its size. *)
Theorem extract_retry_seconds_reads_retryDelay
    (pre sep ip suf : pystr) :
  let msg := pre ++ py "retryDelay" ++ sep ++ ip ++ py "s" ++ suf in
  ~ occurs pat_retry_in msg ->
  no_earlier_match pat_retryDelay pre
    (py "retryDelay" ++ sep ++ ip ++ py "s" ++ suf) ->
  forallb non_digit sep = true ->
  all_digits ip = true ->
  (List.length ip <= default_max_str_digits)%nat ->
  _extract_retry_seconds msg = Returned (Some (int_of_digits ip)).
Proof.
  intros msg Hfirst Hpre Hsep Hip _. unfold _extract_retry_seconds.
  apply re_search_none_iff in Hfirst. rewrite Hfirst.
  unfold msg. rewrite re_search_skip by exact Hpre.
  destruct (match_here_retryDelay sep ip suf Hsep Hip) as (cs & Hcs & Hg).
  rewrite (re_search_hit _ _ _ Hcs), Hg.
  unfold int_of_str. rewrite Hip. reflexivity.
Qed.

(** Every match of the second pattern starts with an ['r']. *)
Lemma retryDelay_starts_with_r (m : pystr) :
  matches pat_retryDelay m -> exists m', m = 114%N :: m'.
Proof.
  unfold pat_retryDelay. intros H.
  inversion H as [| | | | |r1 r2 m1 m2 H1 H2|]; subst.
  inversion H1; subst. eexists. reflexivity.
Qed.

Lemma no_r_no_earlier_retryDelay (pre t : pystr) :
  ~ In 114%N pre -> no_earlier_match pat_retryDelay pre t.
Proof.
  intros Hnr p1 p2 Hp Hne m rest Hm Hmatch.
  destruct (retryDelay_starts_with_r m Hmatch) as (m' & ->).
  destruct p2 as [|c p2]; [congruence|].
  simpl in Hm. injection Hm as -> _.
  apply Hnr. rewrite Hp. apply in_or_app. right. left. reflexivity.
Qed.

Lemma extract_retry_seconds_reads_retryDelay_witness :
  _extract_retry_seconds
    (py "{'" ++ py "retryDelay" ++ py "': '" ++ py "9007199254740993"
       ++ py "s" ++ py "'}")
  = Returned (Some (int_of_digits (py "9007199254740993"))).
Proof.
  apply (extract_retry_seconds_reads_retryDelay (py "{'") (py "': '")
           (py "9007199254740993") (py "'}")).
  - apply re_search_none_iff. vm_compute. reflexivity.
  - apply no_r_no_earlier_retryDelay. vm_compute. intuition discriminate.
  - vm_compute. reflexivity.
  - vm_compute. reflexivity.
  - apply Nat.leb_le. vm_compute. reflexivity.
Defined.

(** ** One user's messages and another user's history *)

(** The rows that one event adds to [daily_logs] belong to its
    sender. *)
Lemma handle_message_appends_own (env : environment) (event : message_event)
    (w : world) :
  exists rows,
    daily_logs (w_db (final (handle_message env event) w))
    = daily_logs (w_db w) ++ rows
    /\ Forall (fun r => source_user_id event = Some (log_user_id r)) rows.
Proof.
  unfold final.
  destruct (truthy_str (source_user_id event)) eqn:Hs.
  2:{ rewrite (handle_message_no_sender env event w Hs). cbn [snd w_db].
      exists []. rewrite app_nil_r. split; [reflexivity|constructor]. }
  destruct (truthy_sender event Hs) as (uid & Hsrc & Hne).
  destruct (daily_logs_after_insert_user uid
              (isoformat (clock env (w_ticks w))) (w_db w)) as [Hl _].
  destruct (is_profile_query (message_of event)) eqn:Hq.
  - rewrite (handle_message_profile env event uid w Hsrc Hne Hq).
    destruct (generate_with_fallback env (profile_prompt env uid w) 0
                (before_gateway env uid 30 w)) as [r w2] eqn:Hgw.
    destruct (gateway_frame _ _ _ _ _ _ Hgw) as (Hdb & _).
    cbn [before_gateway w_db] in Hdb.
    exists []. rewrite app_nil_r. split; [|constructor].
    destruct r as [[[text used_model] retry_sec]|e]; cbn [snd w_db];
      rewrite Hdb; exact Hl.
  - rewrite (handle_message_report env event uid w Hsrc Hne Hq).
    destruct (generate_with_fallback env (report_prompt env event uid w) 0
                (before_gateway env uid 10 w)) as [r w2] eqn:Hgw.
    destruct (gateway_frame _ _ _ _ _ _ Hgw) as (Hdb & _).
    cbn [before_gateway w_db] in Hdb.
    destruct r as [[[text used_model] retry_sec]|e]; cbn [snd w_db].
    + eexists [_]. cbn [with_log daily_logs]. rewrite Hdb, Hl.
      split; [reflexivity|]. constructor; [|constructor].
      cbn [log_user_id]. exact Hsrc.
    + exists []. rewrite app_nil_r. split; [|constructor].
      rewrite Hdb. exact Hl.
Qed.

(** X18. One user's messages never change another user's history: for
    an event that [other] did not send, whatever the backend does and
    also when the handler raises, [get_recent_logs] for [other] returns
    after the event what it returned before, for every limit and every
    store. *)
Theorem handle_message_isolates_users
    (env : environment) (event : message_event) (w : world)
    (other : pystr) (limit : Z) :
  source_user_id event <> Some other ->
  outcome_of (get_recent_logs other limit)
    (final (handle_message env event) w)
  = outcome_of (get_recent_logs other limit) w.
Proof.
  intros Hother. unfold outcome_of. rewrite !get_recent_logs_run. cbn [fst].
  destruct (handle_message_appends_own env event w) as (rows & Hlogs & Hall).
  unfold sql_select_recent, selected_logs. rewrite Hlogs.
  unfold where_user_id at 1. rewrite filter_app.
  fold (where_user_id other (daily_logs (w_db w))).
  fold (where_user_id other rows).
  rewrite (where_user_id_none other rows).
  - rewrite app_nil_r. reflexivity.
  - intros r Hr Heq. rewrite Forall_forall in Hall.
    apply Hother. rewrite (Hall r Hr), Heq. reflexivity.
Qed.

Lemma handle_message_isolates_users_witness :
  outcome_of (get_recent_logs (py "U2") 10)
    (final (handle_message env_always_ok report_event) fresh_world)
  = outcome_of (get_recent_logs (py "U2") 10) fresh_world.
Proof.
  apply (handle_message_isolates_users env_always_ok report_event fresh_world
           (py "U2") 10).
  vm_compute. intros H. discriminate H.
Defined.
